(** * M31-Agent: the inline completion orchestrator and its collaborators

    A shallow embedding of the completion path of the extension
    ([services/ai/completionService.ts], [services/ai/agentService.ts],
    [services/telemetry/telemetryService.ts]) together with the properties
    its design document states about it.

    Conventions of the embedding
    - JavaScript numbers that hold integers (timestamps of [Date.now()],
      line numbers, sizes) are values of [Z];
    - a JavaScript [Map] is an association list in insertion order with
      pairwise distinct keys, because [addToCache] sorts the entries and the
      order of insertion decides ties; the [activeSessions] map, whose order
      is never observed, is a [gmap];
    - [Date.now()], [Math.random()], the network and the delivery step of the
      telemetry sink are oracles of the environment; every read of the clock
      advances a counter in the world;
    - exceptions are explicit: a computation yields [Ret v] or [Throw e]. *)

From Stdlib Require Import ZArith Lia Ascii String.
From stdpp Require Import base tactics option list strings gmap pretty sorting.

Local Open Scope Z_scope.

(** ** Part I: the program *)

(** *** The result cache of [CompletionService] *)

Module ResultCache.

(** [{ result: string; timestamp: number }] *)
Record entry := Entry { result : string; timestamp : Z }.

(** [Map<string, entry>], in insertion order. *)
Abbreviation cache := (list (string * entry)).

Definition CACHE_TTL_MS : Z := 60000.

(** [Map.prototype.get] *)
Fixpoint cache_get (k : string) (c : cache) : option entry :=
  match c with
  | [] => None
  | (k', e) :: c' => if decide (k = k') then Some e else cache_get k c'
  end.

(** [Map.prototype.set]: an existing key keeps its place, a new key goes
    last. *)
Fixpoint cache_set (k : string) (e : entry) (c : cache) : cache :=
  match c with
  | [] => [(k, e)]
  | (k', e') :: c' =>
      if decide (k = k') then (k, e) :: c' else (k', e') :: cache_set k e c'
  end.

(** [Map.prototype.delete] *)
Definition cache_delete (k : string) (c : cache) : cache :=
  filter (λ p, p.1 ≠ k) c.

(** [Array.prototype.sort] with the comparator
    [(a, b) => a[1].timestamp - b[1].timestamp]. The sort of the language is
    stable, and a stable sort has one possible result; insertion from the
    right computes it. *)
Fixpoint insert_by_timestamp (x : string * entry) (l : cache) : cache :=
  match l with
  | [] => [x]
  | y :: l' =>
      if bool_decide (timestamp x.2 - timestamp y.2 ≤ 0)
      then x :: y :: l'
      else y :: insert_by_timestamp x l'
  end.

Definition sort_by_timestamp (l : cache) : cache :=
  foldr insert_by_timestamp [] l.

(** [getFromCache(key)], reading the clock once at [now]. *)
Definition getFromCache (now : Z) (key : string) (c : cache)
  : option string * cache :=
  match cache_get key c with
  | Some cached =>
      if bool_decide (now - timestamp cached < CACHE_TTL_MS)
      then (Some (result cached), c)
      else (None, cache_delete key c)
  | None => (None, c)
  end.

(** The keys chosen for eviction by [addToCache]:
    [[...entries()].sort(...).slice(0, 20).map(([key]) => key)]. *)
Definition keysToDelete (c : cache) : list string :=
  (take 20 (sort_by_timestamp c)).*1.

(** [addToCache(key, result)], reading the clock once at [now]. *)
Definition addToCache (now : Z) (key res : string) (c : cache) : cache :=
  let c1 := cache_set key (Entry res now) c in
  if bool_decide (100 < Z.of_nat (length c1))
  then foldl (λ acc k, cache_delete k acc) c1 (keysToDelete c1)
  else c1.

(** The representation invariant of a [Map]: keys are pairwise distinct;
    and the bound the eviction maintains. *)
Definition cache_inv (c : cache) : Prop :=
  NoDup c.*1 ∧ (length c ≤ 100)%nat.

(** The two operations on the cache, and the store after a sequence of
    them from the empty store of a new service. *)
Inductive cache_call :=
  | Get (now : Z) (key : string)
  | Put (now : Z) (key res : string).

Definition cache_step (c : cache) (call : cache_call) : cache :=
  match call with
  | Get now key => (getFromCache now key c).2
  | Put now key res => addToCache now key res c
  end.

Definition cache_run (calls : list cache_call) : cache :=
  foldl cache_step [] calls.

End ResultCache.

(** *** Telemetry events *)

Module TelemetryEvent.

Inductive TelemetryEventType :=
  | EXTENSION_ACTIVATED | EXTENSION_DEACTIVATED | COMMAND_EXECUTED
  | FEATURE_USED | CODE_GENERATED | CODE_EXPLAINED | COMMIT_GENERATED
  | LOGS_ADDED | CODE_COMPLETED | CHAT_MESSAGE_SENT | CHAT_MESSAGE_RECEIVED
  | ERROR_OCCURRED | MODEL_CHANGED | SETTINGS_CHANGED | API_REQUEST
  | API_RESPONSE | SUGGESTION_ACCEPTED | SUGGESTION_REJECTED
  | FEEDBACK_SUBMITTED | PERFORMANCE_METRIC.

(** The values the services put into [properties: Record<string, any>]. *)
Inductive prop_value :=
  | PString (s : string)
  | PNumber (n : Z)
  | PBool (b : bool)
  | PPosition (line character : Z).

(** [interface TelemetryEvent]; the optional fields are options. *)
Record t := mk {
  type : TelemetryEventType;
  timestamp : Z;
  sessionId : string;
  userId : option string;
  properties : option (gmap string prop_value);
  measurements : option (gmap string Z)
}.

End TelemetryEvent.

(** *** The telemetry batcher, [TelemetryService] *)

Module TelemetryService.
Import TelemetryEvent.

Definition EVENTS_BATCH_SIZE : nat := 20.

(** What the host reports: [vscode.version], [os.platform()],
    [os.release()]. *)
Record host := Host {
  vscode_version : string;
  os_platform : string;
  os_release : string
}.

(** The fields of the service that the completion path reads or writes,
    and two observations of its effects: [flushed], the batches that a
    flush took out of the buffer and handed to the delivery step, oldest
    first, and [errorLog], the messages passed to [logger.error]. *)
Record t := mk {
  sessionId : string;
  machineId : string;
  isEnabled : bool;
  extensionVersion : string;
  pendingEvents : list TelemetryEvent.t;
  flushed : list (list TelemetryEvent.t);
  errorLog : list string
}.

Definition set_isEnabled (b : bool) (st : t) : t :=
  mk (sessionId st) (machineId st) b (extensionVersion st)
     (pendingEvents st) (flushed st) (errorLog st).

Definition set_pendingEvents (l : list TelemetryEvent.t) (st : t) : t :=
  mk (sessionId st) (machineId st) (isEnabled st) (extensionVersion st)
     l (flushed st) (errorLog st).

Definition record_flushed (batch : list TelemetryEvent.t) (st : t) : t :=
  mk (sessionId st) (machineId st) (isEnabled st) (extensionVersion st)
     (pendingEvents st) (flushed st ++ [batch]) (errorLog st).

Definition logger_error (msg : string) (st : t) : t :=
  mk (sessionId st) (machineId st) (isEnabled st) (extensionVersion st)
     (pendingEvents st) (flushed st) (errorLog st ++ [msg]).

(** The constructor: two fresh identifiers [uuidv4()], the configured
    switch, the version ['0.1.0'] and an empty buffer. *)
Definition constructor (uuid1 uuid2 : string) (telemetryEnabled : bool) : t :=
  mk uuid1 uuid2 telemetryEnabled "0.1.0" [] [] [].

(** The statements of the [try] block of [flush] after the snapshot stand
    for the delivery of the batch; they return or throw. *)
Inductive delivery := Delivered | DeliveryThrows.

(** The delivery step as the environment decides it, batch by batch. *)
Abbreviation sink := (list TelemetryEvent.t → delivery).

(** [flush()]. The body has no [await], so a call runs to its end before
    the caller goes on. In the [catch] branch the snapshot [eventsToSend] is
    out of scope; the buffer is assigned a copy of itself. *)
Definition flush (deliver : sink) (st : t) : t :=
  if negb (isEnabled st) || bool_decide (length (pendingEvents st) = 0%nat)
  then st
  else
    let eventsToSend := pendingEvents st in
    let st1 := set_pendingEvents [] st in
    match deliver eventsToSend with
    | Delivered => record_flushed eventsToSend st1
    | DeliveryThrows =>
        let st2 := logger_error "Error flushing telemetry events" st1 in
        set_pendingEvents (pendingEvents st2) st2
    end.

(** The enrichment of [trackEvent]:
    [{...event, timestamp: event.timestamp || Date.now(),
       sessionId: this.sessionId,
       properties: {...event.properties, extensionVersion, vscodeVersion, os}}] *)
Definition enrich (h : host) (now : Z) (st : t) (event : TelemetryEvent.t)
  : TelemetryEvent.t :=
  TelemetryEvent.mk
    (type event)
    (if bool_decide (timestamp event = 0) then now else timestamp event)
    (sessionId st)
    (userId event)
    (Some (<["os" := PString (os_platform h +:+ "-" +:+ os_release h)]>
          (<["vscodeVersion" := PString (vscode_version h)]>
          (<["extensionVersion" := PString (extensionVersion st)]>
          (default ∅ (properties event))))))
    (measurements event).

(** [trackEvent(event)]; [now] is the reading of the clock (used only when
    the event has no timestamp), [deliver] decides the delivery if this call
    flushes. *)
Definition trackEvent (h : host) (now : Z) (deliver : sink)
    (event : TelemetryEvent.t) (st : t) : t :=
  if negb (isEnabled st) then st
  else
    let enrichedEvent := enrich h now st event in
    let st1 := set_pendingEvents (pendingEvents st ++ [enrichedEvent]) st in
    if bool_decide (EVENTS_BATCH_SIZE ≤ length (pendingEvents st1))%nat
    then flush deliver st1
    else st1.

(** [enable()], [disable()] and the configuration listener of the
    constructor. *)
Definition enable (st : t) : t := set_isEnabled true st.
Definition disable (st : t) : t := set_isEnabled false st.
Definition onDidChangeConfiguration (isTelemetryEnabled : bool) (st : t) : t :=
  set_isEnabled isTelemetryEnabled st.

(** The calls a client can make on the service, and a run of them. *)
Inductive call :=
  | TrackEvent (now : Z) (deliver : sink) (event : TelemetryEvent.t)
  | Flush (deliver : sink)
  | Enable
  | Disable
  | ConfigChanged (isTelemetryEnabled : bool).

Definition step (h : host) (st : t) (c : call) : t :=
  match c with
  | TrackEvent now deliver event => trackEvent h now deliver event st
  | Flush deliver => flush deliver st
  | Enable => enable st
  | Disable => disable st
  | ConfigChanged b => onDidChangeConfiguration b st
  end.

Definition run (h : host) (st : t) (cs : list call) : t :=
  foldl (step h) st cs.

End TelemetryService.

(** *** Strings of the language *)

Module JS.

(** The line feed ['\n']. *)
Definition LF : string := String "010"%char EmptyString.

(** [String.prototype.substring(start, end)]: both indices are clamped to
    the string and swapped when out of order. *)
Definition clamp (len x : Z) : Z := Z.min (Z.max x 0) len.

Definition substring (s : string) (indexStart indexEnd : Z) : string :=
  let len := Z.of_nat (String.length s) in
  let a := clamp len indexStart in
  let b := clamp len indexEnd in
  String.substring (Z.to_nat (Z.min a b))
    (Z.to_nat (Z.max a b - Z.min a b)) s.

(** [String.prototype.substring(start)] *)
Definition substring_from (s : string) (indexStart : Z) : string :=
  substring s indexStart (Z.of_nat (String.length s)).

(** White space and line terminators among the code units below 256. *)
Definition is_space (a : ascii) : bool :=
  bool_decide (nat_of_ascii a ∈ [9; 10; 11; 12; 13; 32; 160]%nat).

Fixpoint trimStart (s : string) : string :=
  match s with
  | EmptyString => EmptyString
  | String a s' => if is_space a then trimStart s' else s
  end.

Fixpoint trimEnd (s : string) : string :=
  match s with
  | EmptyString => EmptyString
  | String a s' =>
      match trimEnd s' with
      | EmptyString => if is_space a then EmptyString else String a EmptyString
      | t => String a t
      end
  end.

(** [String.prototype.trim()] *)
Definition trim (s : string) : string := trimEnd (trimStart s).

(** Truthiness of a string, and of an optional string
    ([string | undefined]). *)
Definition truthy (s : string) : bool := negb (bool_decide (s = "")).

Definition truthy_opt (o : option string) : bool :=
  match o with Some s => truthy s | None => false end.

End JS.

(** *** Values exchanged with the request client *)

(** A thrown [Error]. *)
Module Error.
Record t := mk { message : string }.
End Error.

(** [type Result<T, E> = Success<T> | Failure<E>] *)
Inductive Result (V E : Type) :=
  | Success (value : V)
  | Failure (error : E).
Arguments Success {V E} value.
Arguments Failure {V E} error.

Module ApiErrorResponse.
Record t := mk { status : Z; code : string; message : string }.
End ApiErrorResponse.

Module CompletionRequest.
Record t := mk {
  prompt : string;
  model : string;
  maxTokens : Z;
  temperature : Z;
  stop : list string
}.
End CompletionRequest.

Module CompletionResponse.
Record t := mk {
  text : string;
  tokens : Z;
  model : string;
  finishReason : string
}.
End CompletionResponse.

Module ChatMessageRole.
Record t := mk { role : string; content : string }.
End ChatMessageRole.

Module ChatCompletionRequest.
Record t := mk { messages : list ChatMessageRole.t; model : string }.
End ChatCompletionRequest.

Module ChatCompletionResponse.
Record t := mk {
  message : ChatMessageRole.t;
  tokens : Z;
  model : string;
  finishReason : string
}.
End ChatCompletionResponse.

Module CodeGenerationParams.
Record t := mk {
  prompt : string;
  language : option string;
  modelId : option string;
  includeComments : option bool;
  maxTokens : option Z
}.
End CodeGenerationParams.

Module CodeGenerationResponse.
Record t := mk { code : string; language : string; tokens : Z }.
End CodeGenerationResponse.

Module CodeExplanationParams.
Record t := mk {
  code : string;
  language : option string;
  modelId : option string;
  level : option string;
  includeExamples : option bool
}.
End CodeExplanationParams.

Module CodeExplanationResponse.
Record t := mk { explanation : string; tokens : Z }.
End CodeExplanationResponse.

Module CommitMessageGenerationParams.
Record t := mk {
  diff : string;
  conventional : option bool;
  scope : option string;
  modelId : option string
}.
End CommitMessageGenerationParams.

Module CommitMessageGenerationResponse.
Record t := mk { message : string; tokens : Z }.
End CommitMessageGenerationResponse.

(** [LogGenerationParams] declares no [modelId]; [addLogging] reads the
    property all the same, so it is here, absent unless a caller sets it. *)
Module LogGenerationParams.
Record t := mk {
  code : string;
  language : string;
  level : option string;
  logFormat : option string;
  logLibrary : option string;
  modelId : option string
}.
End LogGenerationParams.

Module LogGenerationResponse.
Record t := mk { code : string; tokens : Z }.
End LogGenerationResponse.

(** The request of a one-shot command: [{...params, modelId: m}]. *)
Record with_model (P : Type) := WithModel { params : P; modelId : string }.
Arguments WithModel {P} params modelId.
Arguments params {P} _.
Arguments modelId {P} _.

(** [enum AICapability] and its string values. *)
Inductive AICapability :=
  | CODE_COMPLETION | CODE_GENERATION | CODE_EXPLANATION | COMMIT_GENERATION
  | LOG_GENERATION | CHAT | DEBUGGING | REFACTORING | TRANSLATION.

Definition capability_value (c : AICapability) : string :=
  match c with
  | CODE_COMPLETION => "code_completion"
  | CODE_GENERATION => "code_generation"
  | CODE_EXPLANATION => "code_explanation"
  | COMMIT_GENERATION => "commit_generation"
  | LOG_GENERATION => "log_generation"
  | CHAT => "chat"
  | DEBUGGING => "debugging"
  | REFACTORING => "refactoring"
  | TRANSLATION => "translation"
  end.

(** The editor: [vscode.TextDocument] and [vscode.Position]. *)
Module TextDocument.
Record t := mk { fileName : string; languageId : string; lines : list string }.
Definition lineCount (d : t) : Z := Z.of_nat (length (lines d)).
End TextDocument.

Module Position.
Record t := mk { line : Z; character : Z }.
End Position.

(** *** The world of the services and the monad of their methods *)

Module Runtime.

(** The result of running a method: a value or a thrown error. *)
Inductive outcome (A : Type) :=
  | Ret (a : A)
  | Throw (e : Error.t).
Arguments Ret {A} a.
Arguments Throw {A} e.

(** The settings the completion path reads from [ConfigManager]. *)
Record settings := Settings {
  autoComplete : bool;
  configuredModel : string;
  linesToContextBefore : Z;
  linesToContextAfter : Z;
  maxTokens : Z;
  temperature : Z
}.

(** A request client answers with a [Result] or throws. *)
Abbreviation endpoint Req Resp :=
  (Req → outcome (Result Resp ApiErrorResponse.t)).

(** The environment of a run: the clock ([clock n] is the [n]-th reading of
    [Date.now()]), the random suffixes of session names, the host, the
    delivery step of the telemetry sink, the settings and the request
    client. *)
Record env := Env {
  clock : nat → Z;
  random : nat → string;
  host : TelemetryService.host;
  deliver : TelemetryService.sink;
  config : settings;
  api_getCompletion : endpoint CompletionRequest.t CompletionResponse.t;
  api_getChatCompletion :
    endpoint ChatCompletionRequest.t ChatCompletionResponse.t;
  api_generateCode :
    endpoint (with_model CodeGenerationParams.t) CodeGenerationResponse.t;
  api_explainCode :
    endpoint (with_model CodeExplanationParams.t) CodeExplanationResponse.t;
  api_generateCommitMessage :
    endpoint (with_model CommitMessageGenerationParams.t)
      CommitMessageGenerationResponse.t;
  api_addLogging :
    endpoint (with_model LogGenerationParams.t) LogGenerationResponse.t
}.

(** An outbound call, as the request client receives it. *)
Inductive outbound :=
  | PostCompletions (r : CompletionRequest.t)
  | PostChatCompletions (r : ChatCompletionRequest.t)
  | PostCodeGenerate (r : with_model CodeGenerationParams.t)
  | PostCodeExplain (r : with_model CodeExplanationParams.t)
  | PostCommitMessage (r : with_model CommitMessageGenerationParams.t)
  | PostAddLogging (r : with_model LogGenerationParams.t).

(** An entry of [AgentService.activeSessions]. *)
Record session := Session { startTime : Z; capability : AICapability }.

(** The mutable state of the singletons, with two observations: [network],
    the outbound calls issued so far, oldest first, and [errors], the
    messages the two services passed to [logger.error]. *)
Record world := World {
  ticks : nat;
  draws : nat;
  completionCache : ResultCache.cache;
  telemetry : TelemetryService.t;
  apiSessionId : string;
  selectedModel : string;
  activeSessions : gmap string session;
  network : list outbound;
  errors : list string
}.

Definition set_ticks (n : nat) (w : world) : world :=
  World n (draws w) (completionCache w) (telemetry w) (apiSessionId w)
    (selectedModel w) (activeSessions w) (network w) (errors w).
Definition set_draws (n : nat) (w : world) : world :=
  World (ticks w) n (completionCache w) (telemetry w) (apiSessionId w)
    (selectedModel w) (activeSessions w) (network w) (errors w).
Definition set_completionCache (c : ResultCache.cache) (w : world) : world :=
  World (ticks w) (draws w) c (telemetry w) (apiSessionId w)
    (selectedModel w) (activeSessions w) (network w) (errors w).
Definition set_telemetry (t : TelemetryService.t) (w : world) : world :=
  World (ticks w) (draws w) (completionCache w) t (apiSessionId w)
    (selectedModel w) (activeSessions w) (network w) (errors w).
Definition set_activeSessions (m : gmap string session) (w : world) : world :=
  World (ticks w) (draws w) (completionCache w) (telemetry w) (apiSessionId w)
    (selectedModel w) m (network w) (errors w).
Definition set_network (l : list outbound) (w : world) : world :=
  World (ticks w) (draws w) (completionCache w) (telemetry w) (apiSessionId w)
    (selectedModel w) (activeSessions w) l (errors w).
Definition set_errors (l : list string) (w : world) : world :=
  World (ticks w) (draws w) (completionCache w) (telemetry w) (apiSessionId w)
    (selectedModel w) (activeSessions w) (network w) l.

(** A method: it runs in a world and returns or throws; what it wrote
    before a throw stays written. *)
Definition M (A : Type) : Type := world → outcome A * world.

Definition ret {A} (a : A) : M A := λ w, (Ret a, w).

Definition bind {A B} (m : M A) (k : A → M B) : M B :=
  λ w, match m w with
       | (Ret a, w') => k a w'
       | (Throw e, w') => (Throw e, w')
       end.

Definition throw {A} (e : Error.t) : M A := λ w, (Throw e, w).

(** [try { body } catch (error) { handler }] *)
Definition try_catch {A} (body : M A) (handler : Error.t → M A) : M A :=
  λ w, match body w with
       | (Ret a, w') => (Ret a, w')
       | (Throw e, w') => handler e w'
       end.

Definition gets {A} (f : world → A) : M A := λ w, (Ret (f w), w).
Definition modify (f : world → world) : M unit := λ w, (Ret (), f w).

Declare Scope js_scope.
Delimit Scope js_scope with js.
Notation "'let*' x := m 'in' k" := (bind m (λ x, k))
  (at level 10, x name, m at level 100, k at level 200) : js_scope.
Notation "m ;; k" := (bind m (λ _, k))
  (at level 100, k at level 200, right associativity) : js_scope.

(** A loop that updates one local variable. *)
Fixpoint for_each {A B} (l : list B) (body : A → B → M A) (a : A) : M A :=
  match l with
  | [] => ret a
  | b :: l' => bind (body a b) (for_each l' body)
  end.

Section primitives.
Context (E : env).
Local Open Scope js_scope.

(** [Date.now()] *)
Definition date_now : M Z :=
  λ w, (Ret (clock E (ticks w)), set_ticks (S (ticks w)) w).

(** [Math.random().toString(36).substring(2, 9)] *)
Definition math_random : M string :=
  λ w, (Ret (random E (draws w)), set_draws (S (draws w)) w).

(** [this.logger.error(msg, ...)] *)
Definition logger_error (msg : string) : M unit :=
  modify (λ w, set_errors (errors w ++ [msg]) w).

(** [document.lineAt(i)]: throws outside the document. *)
Definition lineAt (document : TextDocument.t) (i : Z) : M string :=
  if bool_decide (0 ≤ i)
  then match TextDocument.lines document !! Z.to_nat i with
       | Some l => ret l
       | None => throw (Error.mk "Illegal value for `line`")
       end
  else throw (Error.mk "Illegal value for `line`").

(** [this.telemetryService.trackEvent(event)]: the clock is read only for
    an event without a timestamp, and only when telemetry is enabled. *)
Definition telemetryService_trackEvent (event : TelemetryEvent.t) : M unit :=
  let* tel := gets telemetry in
  if negb (TelemetryService.isEnabled tel) then ret ()
  else
    let* now := (if bool_decide (TelemetryEvent.timestamp event = 0)
                 then date_now else ret 0) in
    modify (set_telemetry
              (TelemetryService.trackEvent (host E) now (deliver E) event tel)).

(** An awaited call of the request client; the call is recorded. *)
Definition await_api {Req Resp} (record : Req → outbound)
    (api : endpoint Req Resp) (request : Req)
  : M (Result Resp ApiErrorResponse.t) :=
  modify (λ w, set_network (network w ++ [record request]) w);;
  match api request with
  | Ret r => ret r
  | Throw e => throw e
  end.

End primitives.

End Runtime.

(** *** [CompletionService] *)

Module CompletionService.
Import Runtime.

Section with_env.
Context (E : env).
Local Open Scope js_scope.

(** [getCacheKey(language, prefix, context)] *)
Definition getCacheKey (language prefix context : string) : string :=
  language +:+ ":" +:+ prefix +:+ ":" +:+ JS.substring context 0 50.

(** [getFromCache(key)] and [addToCache(key, result)] on the cache of the
    world; each reads the clock once. *)
Definition getFromCache (key : string) : M (option string) :=
  let* c := gets completionCache in
  match ResultCache.cache_get key c with
  | Some _ =>
      let* now := date_now E in
      let r := ResultCache.getFromCache now key c in
      modify (set_completionCache r.2);;
      ret r.1
  | None => ret None
  end.

Definition addToCache (key result : string) : M unit :=
  let* now := date_now E in
  modify (λ w, set_completionCache
                 (ResultCache.addToCache now key result (completionCache w)) w).

(** [trackCompletionEvent(...)] *)
Definition trackCompletionEvent (language : string)
    (promptLength completionLength : Z) (position : Position.t)
    (duration : Z) (success fromCache : bool) (tokensUsed : Z) : M unit :=
  let* now := date_now E in
  let* sid := gets apiSessionId in
  telemetryService_trackEvent E
    (TelemetryEvent.mk TelemetryEvent.CODE_COMPLETED now sid None
       (Some (list_to_map
          [("language", TelemetryEvent.PString language);
           ("promptLength", TelemetryEvent.PNumber promptLength);
           ("completionLength", TelemetryEvent.PNumber completionLength);
           ("position", TelemetryEvent.PPosition (Position.line position)
                          (Position.character position));
           ("success", TelemetryEvent.PBool success);
           ("fromCache", TelemetryEvent.PBool fromCache);
           ("modelId", TelemetryEvent.PString (configuredModel (config E)))]))
       (Some (list_to_map
          [("duration", duration);
           ("promptLength", promptLength);
           ("completionLength", completionLength);
           ("tokensUsed", tokensUsed)]))).

(** [buildCompletionRequest(document, position, linePrefix, context)].
    The second loop fills [contextAfter], which the function never reads
    again: the request carries [promptText] only. *)
Definition buildCompletionRequest (document : TextDocument.t)
    (position : Position.t) (linePrefix : string) (context : option string)
  : M CompletionRequest.t :=
  let settings := config E in
  let startLine :=
    Z.max 0 (Position.line position - linesToContextBefore settings) in
  let endLine :=
    Z.min (TextDocument.lineCount document - 1)
          (Position.line position + linesToContextAfter settings) in
  let* promptText :=
    for_each (seqZ startLine (Position.line position - startLine))
      (λ promptText i,
         let* l := lineAt document i in ret (promptText +:+ l +:+ JS.LF))
      "" in
  let promptText := promptText +:+ linePrefix in
  let* contextAfter :=
    for_each (seqZ (Position.line position)
                (endLine + 1 - Position.line position))
      (λ contextAfter i,
         let* l := lineAt document i in
         if bool_decide (i = Position.line position)
         then ret (contextAfter
                   +:+ JS.substring_from l (Position.character position)
                   +:+ JS.LF)
         else ret (contextAfter +:+ l +:+ JS.LF))
      "" in
  let promptText :=
    if JS.truthy_opt context
    then default "" context +:+ JS.LF +:+ JS.LF +:+ promptText
    else promptText in
  ret (CompletionRequest.mk promptText (configuredModel settings)
         (maxTokens settings) (temperature settings)
         [JS.LF +:+ JS.LF; "```"]).

(** [getCompletion(document, position, context)]. One request runs from
    its trigger to its end; the interleaving of other triggers at the
    [await] is outside this definition. *)
Definition getCompletion (document : TextDocument.t) (position : Position.t)
    (context : option string) : M (option string) :=
  try_catch
    (let* startTime := date_now E in
     if negb (autoComplete (config E)) then ret None
     else
       let* lineText := lineAt document (Position.line position) in
       let linePrefix :=
         JS.substring lineText 0 (Position.character position) in
       if negb (JS.truthy (JS.trim linePrefix)) then ret None
       else
         let cacheKey :=
           getCacheKey (TextDocument.languageId document) linePrefix
             (default "" context) in
         let* cached := getFromCache cacheKey in
         if JS.truthy_opt cached then
           let* t := date_now E in
           trackCompletionEvent (TextDocument.languageId document)
             (Z.of_nat (String.length linePrefix))
             (Z.of_nat (String.length (default "" cached)))
             position (t - startTime) true true 0;;
           ret cached
         else
           let* request :=
             buildCompletionRequest document position linePrefix context in
           let* response :=
             await_api PostCompletions (api_getCompletion E) request in
           match response with
           | Failure error =>
               logger_error "Error getting completion";;
               ret None
           | Success value =>
               let completionText := CompletionResponse.text value in
               addToCache cacheKey completionText;;
               let* t := date_now E in
               trackCompletionEvent (TextDocument.languageId document)
                 (Z.of_nat (String.length linePrefix))
                 (Z.of_nat (String.length completionText))
                 position (t - startTime) true false
                 (CompletionResponse.tokens value);;
               ret (Some completionText)
           end)
    (λ error,
       logger_error "Unexpected error in code completion";;
       ret None).

End with_env.

End CompletionService.

(** *** [AgentService] *)

Module AgentService.
Import Runtime.

Section with_env.
Context (E : env).
Local Open Scope js_scope.

(** The name of a session:
    [`${capability}-${Date.now()}-${Math.random().toString(36).substring(2, 9)}`] *)
Definition session_name (capability : AICapability) (t : Z) (r : string)
  : string :=
  capability_value capability +:+ "-" +:+ pretty t +:+ "-" +:+ r.

(** [startSession(capability)] *)
Definition startSession (capability : AICapability) : M string :=
  let* t := date_now E in
  let* r := math_random E in
  let sessionId := session_name capability t r in
  let* startTime := date_now E in
  modify (λ w, set_activeSessions
                 (<[sessionId := Session startTime capability]>
                    (activeSessions w)) w);;
  ret sessionId.

(** The event literal of [endSession]. *)
Definition feature_used (now : Z) (sid model : string)
    (capability : AICapability) (success : bool) (duration : Z)
  : TelemetryEvent.t :=
  TelemetryEvent.mk TelemetryEvent.FEATURE_USED now sid None
    (Some (list_to_map
       [("feature", TelemetryEvent.PString (capability_value capability));
        ("modelId", TelemetryEvent.PString model);
        ("success", TelemetryEvent.PBool success)]))
    (Some (list_to_map [("duration", duration)])).

(** [endSession(sessionId, capability, success)] *)
Definition endSession (sessionId : string) (capability : AICapability)
    (success : bool) : M unit :=
  let* sessions := gets activeSessions in
  match sessions !! sessionId with
  | None => ret ()
  | Some session =>
      let* t := date_now E in
      let duration := t - startTime session in
      let* now := date_now E in
      let* sid := gets apiSessionId in
      let* model := gets selectedModel in
      telemetryService_trackEvent E
        (feature_used now sid model capability success duration);;
      modify (λ w, set_activeSessions (delete sessionId (activeSessions w)) w)
  end.

(** [getCodeCompletion(document, position, context)] *)
Definition getCodeCompletion (document : TextDocument.t)
    (position : Position.t) (context : option string) : M (option string) :=
  let* sessionId := startSession CODE_COMPLETION in
  try_catch
    (let* result :=
       CompletionService.getCompletion E document position context in
     endSession sessionId CODE_COMPLETION true;;
     ret result)
    (λ error,
       logger_error "Error in code completion";;
       endSession sessionId CODE_COMPLETION false;;
       ret None).

(** [params.modelId || this.selectedModel] *)
Definition model_or_selected (modelId : option string) : M string :=
  if JS.truthy_opt modelId then ret (default "" modelId)
  else gets selectedModel.

(** [generateCode(params)] *)
Definition generateCode (params : CodeGenerationParams.t)
  : M (Result string Error.t) :=
  let* sessionId := startSession CODE_GENERATION in
  try_catch
    (let* m := model_or_selected (CodeGenerationParams.modelId params) in
     let request := WithModel params m in
     let* response :=
       await_api PostCodeGenerate (api_generateCode E) request in
     match response with
     | Failure err =>
         let error := Error.mk ("Failed to generate code: "
                                +:+ ApiErrorResponse.message err) in
         endSession sessionId CODE_GENERATION false;;
         ret (Failure error)
     | Success value =>
         endSession sessionId CODE_GENERATION true;;
         ret (Success (CodeGenerationResponse.code value))
     end)
    (λ error,
       logger_error "Error generating code";;
       endSession sessionId CODE_GENERATION false;;
       ret (Failure error)).

(** [explainCode(params)] *)
Definition explainCode (params : CodeExplanationParams.t)
  : M (Result string Error.t) :=
  let* sessionId := startSession CODE_EXPLANATION in
  try_catch
    (let* m := model_or_selected (CodeExplanationParams.modelId params) in
     let request := WithModel params m in
     let* response :=
       await_api PostCodeExplain (api_explainCode E) request in
     match response with
     | Failure err =>
         let error := Error.mk ("Failed to explain code: "
                                +:+ ApiErrorResponse.message err) in
         endSession sessionId CODE_EXPLANATION false;;
         ret (Failure error)
     | Success value =>
         endSession sessionId CODE_EXPLANATION true;;
         ret (Success (CodeExplanationResponse.explanation value))
     end)
    (λ error,
       logger_error "Error explaining code";;
       endSession sessionId CODE_EXPLANATION false;;
       ret (Failure error)).

(** [generateCommitMessage(params)] *)
Definition generateCommitMessage (params : CommitMessageGenerationParams.t)
  : M (Result string Error.t) :=
  let* sessionId := startSession COMMIT_GENERATION in
  try_catch
    (let* m :=
       model_or_selected (CommitMessageGenerationParams.modelId params) in
     let request := WithModel params m in
     let* response :=
       await_api PostCommitMessage (api_generateCommitMessage E) request in
     match response with
     | Failure err =>
         let error := Error.mk ("Failed to generate commit message: "
                                +:+ ApiErrorResponse.message err) in
         endSession sessionId COMMIT_GENERATION false;;
         ret (Failure error)
     | Success value =>
         endSession sessionId COMMIT_GENERATION true;;
         ret (Success (CommitMessageGenerationResponse.message value))
     end)
    (λ error,
       logger_error "Error generating commit message";;
       endSession sessionId COMMIT_GENERATION false;;
       ret (Failure error)).

(** [addLogging(params)] *)
Definition addLogging (params : LogGenerationParams.t)
  : M (Result string Error.t) :=
  let* sessionId := startSession LOG_GENERATION in
  try_catch
    (let* m := model_or_selected (LogGenerationParams.modelId params) in
     let request := WithModel params m in
     let* response :=
       await_api PostAddLogging (api_addLogging E) request in
     match response with
     | Failure err =>
         let error := Error.mk ("Failed to add logging: "
                                +:+ ApiErrorResponse.message err) in
         endSession sessionId LOG_GENERATION false;;
         ret (Failure error)
     | Success value =>
         endSession sessionId LOG_GENERATION true;;
         ret (Success (LogGenerationResponse.code value))
     end)
    (λ error,
       logger_error "Error adding logs";;
       endSession sessionId LOG_GENERATION false;;
       ret (Failure error)).

(** The messages of [chat]: the system prompt, the conversation with
    alternating roles, the new message. *)
Definition chat_messages (message : string) (conversation : list string)
  : list ChatMessageRole.t :=
  [ChatMessageRole.mk "system"
     "You are M31-Agent, an AI assistant for developers."]
  ++ imap (λ i content,
             ChatMessageRole.mk
               (if bool_decide (i `mod` 2 = 0)%nat then "user" else "assistant")
               content) conversation
  ++ [ChatMessageRole.mk "user" message].

(** [chat(message, conversation)] *)
Definition chat (message : string) (conversation : list string)
  : M (Result string Error.t) :=
  let* sessionId := startSession CHAT in
  try_catch
    (let messages := chat_messages message conversation in
     let* model := gets selectedModel in
     let* response :=
       await_api PostChatCompletions (api_getChatCompletion E)
         (ChatCompletionRequest.mk messages model) in
     match response with
     | Failure err =>
         let error := Error.mk ("Failed to get chat response: "
                                +:+ ApiErrorResponse.message err) in
         endSession sessionId CHAT false;;
         ret (Failure error)
     | Success value =>
         endSession sessionId CHAT true;;
         ret (Success (ChatMessageRole.content
                         (ChatCompletionResponse.message value)))
     end)
    (λ error,
       logger_error "Error in chat";;
       endSession sessionId CHAT false;;
       ret (Failure error)).

End with_env.

End AgentService.

(** *** Sample data *)

Module Samples.
Import ResultCache.

(** A full cache: keys ["0"] .. ["99"], created at instants 0 .. 99. *)
Definition full_cache : cache :=
  (λ i : nat, (pretty i, Entry "r" (Z.of_nat i))) <$> seq 0 100.

Definition sample_host : TelemetryService.host :=
  TelemetryService.Host "1.85.0" "linux" "6.1.0".

(** An event as a caller hands it over, with a session identifier of the
    caller's own. *)
Definition sample_event (ts : Z) : TelemetryEvent.t :=
  TelemetryEvent.mk TelemetryEvent.COMMAND_EXECUTED ts "caller-session"
    None None None.

Definition always_delivered : TelemetryService.sink :=
  λ _, TelemetryService.Delivered.
Definition never_delivered : TelemetryService.sink :=
  λ _, TelemetryService.DeliveryThrows.

Definition fresh_service : TelemetryService.t :=
  TelemetryService.constructor "session-1" "machine-1" true.

(** The service after [n] tracked events, at instants 1 .. n. *)
Definition service_with (n : nat) : TelemetryService.t :=
  TelemetryService.run sample_host fresh_service
    ((λ i : nat, TelemetryService.TrackEvent (Z.of_nat i) always_delivered
                   (sample_event (Z.of_nat i))) <$> seq 1 n).

Definition sample_settings : Runtime.settings :=
  Runtime.Settings true "standard" 10 5 256 0.

Definition network_error : ApiErrorResponse.t :=
  ApiErrorResponse.mk 0 "NETWORK_ERROR" "No response received from the server".

(** A client without a connection. *)
Definition offline {Req Resp} : Runtime.endpoint Req Resp :=
  λ _, Runtime.Ret (Failure network_error).

(** A client whose call throws. *)
Definition throwing {Req Resp} : Runtime.endpoint Req Resp :=
  λ _, Runtime.Throw (Error.mk "socket hang up").

(** A client that completes every prompt with ["log(a)"]. *)
Definition completing : Runtime.endpoint CompletionRequest.t CompletionResponse.t :=
  λ r, Runtime.Ret (Success (CompletionResponse.mk "log(a)" 3
                               (CompletionRequest.model r) "stop")).

(** An environment around a completion endpoint: the clock starts at 1000
    and advances by one millisecond per reading. *)
Definition sample_env (settings : Runtime.settings)
    (api : Runtime.endpoint CompletionRequest.t CompletionResponse.t)
  : Runtime.env :=
  Runtime.Env (λ n, 1000 + Z.of_nat n) (λ _, "k3x9q2a") sample_host
    always_delivered settings api offline offline offline offline offline.

Definition sample_world : Runtime.world :=
  Runtime.World 0 0 [] fresh_service "api-session" "standard" ∅ [] [].

(** A document of three lines and one blank line, and two cursors: after
    ["console."] on the second line, and on the blank line. *)
Definition sample_document : TextDocument.t :=
  TextDocument.mk "/work/a.js" "javascript"
    ["const a = 1;"; "console.log(a);"; "return a;"; "    "].

Definition after_console : Position.t := Position.mk 1 8.
Definition on_blank_line : Position.t := Position.mk 3 4.

End Samples.

(** *** Vocabulary of the properties *)

Section cache_vocabulary.
Import ResultCache.

(** The order the eviction sorts by. *)
Definition older (a b : string * entry) : Prop :=
  timestamp a.2 ≤ timestamp b.2.

End cache_vocabulary.

Section telemetry_vocabulary.
Import TelemetryService.

(** The invariant behind C8: every buffered and every handed-over event
    carries the identifier of the service. *)
Definition session_inv (st : TelemetryService.t) : Prop :=
  Forall (λ e, TelemetryEvent.sessionId e = sessionId st) (pendingEvents st) ∧
  Forall (Forall (λ e, TelemetryEvent.sessionId e = sessionId st)) (flushed st).

End telemetry_vocabulary.

Section services_vocabulary.
Import Runtime AgentService.

(** What a method leaves untouched when it only reads the clock, draws
    random names, tracks telemetry or records sessions. *)
Definition quiet (w w' : world) : Prop :=
  completionCache w' = completionCache w ∧
  apiSessionId w' = apiSessionId w ∧
  selectedModel w' = selectedModel w ∧
  network w' = network w ∧
  errors w' = errors w.

(** The world after [startSession]: two readings of the clock, one random
    draw, one more session. *)
Definition session_started (E : env) (cap : AICapability) (w : world)
  : world :=
  set_activeSessions
    (<[session_name cap (clock E (ticks w)) (random E (draws w))
       := Session (clock E (S (ticks w))) cap]> (activeSessions w))
    (set_ticks (S (S (ticks w))) (set_draws (S (draws w))
       (set_ticks (S (ticks w)) w))).

(** The model a one-shot command sends: [params.modelId || selectedModel]. *)
Definition chosen_model (modelId : option string) (w : world) : string :=
  if JS.truthy_opt modelId then default "" modelId else selectedModel w.

(** The result a one-shot command owes its caller, by the outcome of the
    network call: the produced value on success, an error value when the
    client reports a failure, and the thrown error as a value when the call
    throws. *)
Definition result_of {Resp} (failed : string) (produced : Resp → string)
    (o : outcome (Result Resp ApiErrorResponse.t)) : Result string Error.t :=
  match o with
  | Ret (Success value) => Success (produced value)
  | Ret (Failure err) =>
      Failure (Error.mk (failed +:+ ApiErrorResponse.message err))
  | Throw e => Failure e
  end.

(** Lines [first] .. [last - 1] of a document. *)
Definition sublines (document : TextDocument.t) (first last : Z)
  : list string :=
  take (Z.to_nat (last - first))
    (drop (Z.to_nat first) (TextDocument.lines document)).

(** Each line followed by a line feed. *)
Definition with_line_feeds (ls : list string) : string :=
  foldr (λ l acc, l +:+ JS.LF +:+ acc) "" ls.

(** The optional header: [`${context}\n\n`] for a truthy context. *)
Definition header (context : option string) : string :=
  if JS.truthy_opt context then default "" context +:+ JS.LF +:+ JS.LF
  else "".

(** The prompt as [buildCompletionRequest] assembles it: the header, the
    lines before the cursor line and the prefix of the cursor line. *)
Definition code_prompt (settings : settings) (document : TextDocument.t)
    (position : Position.t) (linePrefix : string) (context : option string)
  : string :=
  let cursorLine := Position.line position in
  let startLine := Z.max 0 (cursorLine - linesToContextBefore settings) in
  header context
  +:+ with_line_feeds (sublines document startLine cursorLine)
  +:+ linePrefix.

(** The prompt as the design document words it: the same, followed by the
    rest of the cursor line and the lines after it, up to
    [min(lastLine, cursorLine + linesAfter)]. *)
Definition spec_prompt (settings : settings) (document : TextDocument.t)
    (position : Position.t) (linePrefix : string) (context : option string)
  : string :=
  let cursorLine := Position.line position in
  let endLine :=
    Z.min (TextDocument.lineCount document - 1)
          (cursorLine + linesToContextAfter settings) in
  let current :=
    default "" (TextDocument.lines document !! Z.to_nat cursorLine) in
  code_prompt settings document position linePrefix context
  +:+ JS.substring_from current (Position.character position) +:+ JS.LF
  +:+ with_line_feeds (sublines document (cursorLine + 1) (endLine + 1)).

(** The request [getCompletion] sends for a trigger. *)
Definition completion_request (E : env) (document : TextDocument.t)
    (position : Position.t) (linePrefix : string) (context : option string)
  : CompletionRequest.t :=
  CompletionRequest.mk
    (code_prompt (config E) document position linePrefix context)
    (configuredModel (config E)) (maxTokens (config E))
    (temperature (config E)) [JS.LF +:+ JS.LF; "```"].

(** The feature is switched off, or the text of the cursor line before the
    cursor is empty or white space. *)
Definition noop_trigger (E : env) (document : TextDocument.t)
    (position : Position.t) : Prop :=
  autoComplete (config E) = false ∨
  ∃ lineText,
    0 ≤ Position.line position ∧
    TextDocument.lines document !! Z.to_nat (Position.line position)
    = Some lineText ∧
    JS.trim (JS.substring lineText 0 (Position.character position)) = "".

(** A completion entry point is silent on no-ops when it returns nothing,
    calls no endpoint and leaves the telemetry service as it was. *)
Definition silent_on_noop
    (request : env → TextDocument.t → Position.t → option string
               → M (option string)) : Prop :=
  ∀ E document position context w,
    noop_trigger E document position →
    (request E document position context w).1 = Ret None ∧
    network (request E document position context w).2 = network w ∧
    telemetry (request E document position context w).2 = telemetry w.

End services_vocabulary.

(** *** The tracking helpers of [TelemetryService] *)

Module TelemetryHelpers.
Import TelemetryEvent TelemetryService.

(** The event literal of [trackMetric(name, value)]. *)
Definition metric_event (now : Z) (st : TelemetryService.t)
    (name : string) (value : Z) : TelemetryEvent.t :=
  TelemetryEvent.mk PERFORMANCE_METRIC now (TelemetryService.sessionId st)
    None None (Some {[name := value]}).

(** [trackMetric(name, value)]; [now] is the reading of the clock for the
    event, [now'] the reading [trackEvent] would take for an event without
    a timestamp. *)
Definition trackMetric (h : host) (now now' : Z) (deliver : sink)
    (name : string) (value : Z) (st : TelemetryService.t)
  : TelemetryService.t :=
  if negb (isEnabled st) then st
  else trackEvent h now' deliver (metric_event now st name value) st.

(** The event literal of [trackExtensionActivation(isNewInstall)]. *)
Definition activation_event (h : host) (now : Z) (st : TelemetryService.t)
    (isNewInstall : bool) : TelemetryEvent.t :=
  TelemetryEvent.mk EXTENSION_ACTIVATED now (TelemetryService.sessionId st)
    None
    (Some (list_to_map
       [("vscodeVersion", PString (vscode_version h));
        ("extensionVersion", PString (extensionVersion st));
        ("platform", PString (os_platform h));
        ("machineId", PString (machineId st));
        ("sessionId", PString (TelemetryService.sessionId st));
        ("isNewInstall", PBool isNewInstall)]))
    None.

(** [trackExtensionActivation(isNewInstall)] *)
Definition trackExtensionActivation (h : host) (now now' : Z) (deliver : sink)
    (isNewInstall : bool) (st : TelemetryService.t) : TelemetryService.t :=
  trackEvent h now' deliver (activation_event h now st isNewInstall) st.

(** The event literal of [trackExtensionDeactivation()] and of
    [deactivate()] in [extension.ts], which puts the session of the client
    on it. *)
Definition deactivation_event (now : Z) (sid : string) : TelemetryEvent.t :=
  TelemetryEvent.mk EXTENSION_DEACTIVATED now sid None None None.

(** [trackExtensionDeactivation()]: track, then flush. *)
Definition trackExtensionDeactivation (h : host) (now now' : Z)
    (deliver : sink) (st : TelemetryService.t) : TelemetryService.t :=
  flush deliver
    (trackEvent h now' deliver
       (deactivation_event now (TelemetryService.sessionId st)) st).

(** [deactivate()] of [extension.ts], as far as the telemetry service is
    concerned: track with the session of the client, then flush. *)
Definition deactivate (h : host) (now now' : Z) (deliver : sink)
    (apiSessionId : string) (st : TelemetryService.t) : TelemetryService.t :=
  flush deliver
    (trackEvent h now' deliver (deactivation_event now apiSessionId) st).

(** The calls of a client, helpers included; the timer of
    [setupFlushInterval] is a [Flush]. *)
Inductive client_call :=
  | Base (c : call)
  | TrackMetric (now now' : Z) (deliver : sink) (name : string) (value : Z)
  | TrackExtensionActivation (now now' : Z) (deliver : sink)
      (isNewInstall : bool)
  | TrackExtensionDeactivation (now now' : Z) (deliver : sink)
  | Deactivate (now now' : Z) (deliver : sink) (apiSessionId : string).

Definition client_step (h : host) (st : TelemetryService.t) (c : client_call)
  : TelemetryService.t :=
  match c with
  | Base c => step h st c
  | TrackMetric now now' deliver name value =>
      trackMetric h now now' deliver name value st
  | TrackExtensionActivation now now' deliver isNewInstall =>
      trackExtensionActivation h now now' deliver isNewInstall st
  | TrackExtensionDeactivation now now' deliver =>
      trackExtensionDeactivation h now now' deliver st
  | Deactivate now now' deliver sid => deactivate h now now' deliver sid st
  end.

Definition client_run (h : host) (st : TelemetryService.t)
    (cs : list client_call) : TelemetryService.t :=
  foldl (client_step h) st cs.

End TelemetryHelpers.

(** *** [ApiClient] *)

Module ApiClient.
Import Runtime.

(** An [AxiosError] as [handleAxiosError] reads it: the status of the
    response, when the server answered outside 2xx; whether the request was
    sent; the message. *)
Record AxiosError := mkAxiosError {
  response : option Z;
  request : bool;
  message : string
}.

(** What [this.client.post(url, payload)] does: it resolves with a body of
    the wire type [Result<T, ApiErrorResponse>], or it rejects. *)
Inductive axios (T : Type) :=
  | Resolves (data : Result T ApiErrorResponse.t)
  | Rejects (error : AxiosError).
Arguments Resolves {T} data.
Arguments Rejects {T} error.

(** [handleAxiosError(error)] *)
Definition handleAxiosError {T} (error : AxiosError)
  : Result T ApiErrorResponse.t :=
  match response error with
  | Some status =>
      Failure (ApiErrorResponse.mk status "API_ERROR"
                 "An error occurred while communicating with the API")
  | None =>
      if request error
      then Failure (ApiErrorResponse.mk 0 "NETWORK_ERROR"
                      "No response received from the server")
      else Failure (ApiErrorResponse.mk 0 "REQUEST_SETUP_ERROR"
                      (if JS.truthy (message error) then message error
                       else "Error setting up the request"))
  end.

(** The body shared by the typed methods:
    [try { response = await post(url, request);
           if (response.data.success) return Success(response.data.value)
           else return Failure(response.data.error) }
     catch (error) { return handleAxiosError(error) }].
    The method itself never throws. *)
Definition method {Req Resp} (url : string)
    (post : string → Req → axios Resp) : endpoint Req Resp :=
  λ request,
    Ret (match post url request with
         | Resolves (Success value) => Success value
         | Resolves (Failure error) => Failure error
         | Rejects error => handleAxiosError error
         end).

Section methods.
Context {Req Resp : Type} (post : string → Req → axios Resp).

Definition getCompletion : endpoint Req Resp := method "/completions" post.
Definition getChatCompletion : endpoint Req Resp :=
  method "/chat/completions" post.
Definition generateCode : endpoint Req Resp := method "/code/generate" post.
Definition explainCode : endpoint Req Resp := method "/code/explain" post.
Definition generateCommitMessage : endpoint Req Resp :=
  method "/code/commit-message" post.
Definition addLogging : endpoint Req Resp := method "/code/add-logging" post.

End methods.

(** The posts of the six typed methods, and the environment of the services
    over the client. *)
Record transport := Transport {
  post_completion : string → CompletionRequest.t → axios CompletionResponse.t;
  post_chat :
    string → ChatCompletionRequest.t → axios ChatCompletionResponse.t;
  post_generate :
    string → with_model CodeGenerationParams.t → axios CodeGenerationResponse.t;
  post_explain :
    string → with_model CodeExplanationParams.t
    → axios CodeExplanationResponse.t;
  post_commit :
    string → with_model CommitMessageGenerationParams.t
    → axios CommitMessageGenerationResponse.t;
  post_logging :
    string → with_model LogGenerationParams.t → axios LogGenerationResponse.t
}.

Definition over_client (E : env) (t : transport) : env :=
  Env (clock E) (random E) (host E) (deliver E) (config E)
    (getCompletion (post_completion t))
    (getChatCompletion (post_chat t))
    (generateCode (post_generate t))
    (explainCode (post_explain t))
    (generateCommitMessage (post_commit t))
    (addLogging (post_logging t)).

End ApiClient.

(** *** The completion providers *)

(** [vscode.CompletionItem], the fields the providers set. *)
Module CompletionItem.
Record t := mk {
  label : string;
  kind : string;
  insertText : string;
  detail : string;
  sortText : option string;
  preselect : option bool
}.
End CompletionItem.

(** [M31CompletionProvider] of [providers/completionProvider.ts], which
    goes through [AgentService]. *)
Module M31CompletionProvider.
Import Runtime.

Section with_env.
Context (E : env).
Local Open Scope js_scope.

(** [provideCompletionItems(document, position, token, context)]; the
    provider reads the setting [m31-agents.autoComplete] itself. *)
Definition provideCompletionItems (document : TextDocument.t)
    (position : Position.t) : M (option (list CompletionItem.t)) :=
  if negb (autoComplete (config E)) then ret None
  else
    try_catch
      (let* suggestion :=
         AgentService.getCodeCompletion E document position None in
       if negb (JS.truthy_opt suggestion) then ret None
       else
         ret (Some [CompletionItem.mk (default "" suggestion) "Snippet"
                      (default "" suggestion) "M31-Agents AI suggestion"
                      None None]))
      (λ error, ret None).

End with_env.

End M31CompletionProvider.

(** [M31CompletionItemProvider] of [commands/commandManager.ts], which
    calls [CompletionService] directly. *)
Module M31CompletionItemProvider.
Import Runtime.

Inductive CompletionTriggerKind :=
  | Invoke | TriggerCharacter | TriggerForIncompleteCompletions.

(** [vscode.CompletionContext] *)
Record CompletionContext := mkContext {
  triggerKind : CompletionTriggerKind;
  triggerCharacter : option string
}.

(** The state and the settings the provider reads besides those of the
    services: its list of trigger characters, and
    [settings.codeCompletion.languages] and [.minWordLength]. *)
Record provider_settings := ProviderSettings {
  triggerCharacters : list string;
  languages : gmap string bool;
  minWordLength : Z
}.

Section with_env.
Context (E : env) (ps : provider_settings).

(** [getFileContext(document)] matches regular expressions against the
    text; the provider is stated for any such function. *)
Context (getFileContext : TextDocument.t → string).
Local Open Scope js_scope.

(** [provideCompletionItems(document, position, token, context)] *)
Definition provideCompletionItems (document : TextDocument.t)
    (position : Position.t) (context : CompletionContext)
  : M (option (list CompletionItem.t)) :=
  try_catch
    (if negb (autoComplete (config E)) then ret None
     else if match triggerKind context with
             | TriggerCharacter =>
                 negb (bool_decide
                         (default "" (triggerCharacter context)
                          ∈ triggerCharacters ps))
             | _ => false
             end
     then ret None
     else if negb (default false
                     (languages ps !! TextDocument.languageId document))
     then ret None
     else
       let* lineText := lineAt document (Position.line position) in
       let linePrefix :=
         JS.substring lineText 0 (Position.character position) in
       if bool_decide (Z.of_nat (String.length (JS.trim linePrefix))
                       < minWordLength ps)
       then ret None
       else
         let fileContext := getFileContext document in
         let* completionText :=
           CompletionService.getCompletion E document position
             (Some fileContext) in
         if negb (JS.truthy_opt completionText) then ret None
         else
           ret (Some [CompletionItem.mk (default "" completionText) "Snippet"
                        (default "" completionText) "M31 AI Suggestion"
                        (Some "0") (Some true)]))
    (λ error,
       logger_error "Error providing completion items";;
       ret None).

End with_env.

End M31CompletionItemProvider.

(** *** [WebviewService.escapeHtml] *)

Module WebviewService.

(** [text.replace(/c/g, by)] for a single character [c]. *)
Fixpoint replace_all (c : ascii) (by_ : string) (text : string) : string :=
  match text with
  | EmptyString => EmptyString
  | String a text' =>
      if decide (a = c) then by_ +:+ replace_all c by_ text'
      else String a (replace_all c by_ text')
  end.

(** [escapeHtml(text)]: five replacements, the ampersand first; the
    character with code 34 is the double quote. *)
Definition escapeHtml (text : string) : string :=
  replace_all "'"%char "&#039;"
    (replace_all "034"%char "&quot;"
       (replace_all ">"%char "&gt;"
          (replace_all "<"%char "&lt;"
             (replace_all "&"%char "&amp;" text)))).

End WebviewService.

(** *** Vocabulary of the further properties *)

Section more_vocabulary.
Import Runtime.

(** The event literal of [trackCompletionEvent]. *)
Definition completion_event (E : env) (now : Z) (sid language : string)
    (promptLength completionLength : Z) (position : Position.t)
    (duration : Z) (success fromCache : bool) (tokensUsed : Z)
  : TelemetryEvent.t :=
  TelemetryEvent.mk TelemetryEvent.CODE_COMPLETED now sid None
    (Some (list_to_map
       [("language", TelemetryEvent.PString language);
        ("promptLength", TelemetryEvent.PNumber promptLength);
        ("completionLength", TelemetryEvent.PNumber completionLength);
        ("position", TelemetryEvent.PPosition (Position.line position)
                       (Position.character position));
        ("success", TelemetryEvent.PBool success);
        ("fromCache", TelemetryEvent.PBool fromCache);
        ("modelId", TelemetryEvent.PString (configuredModel (config E)))]))
    (Some (list_to_map
       [("duration", duration);
        ("promptLength", promptLength);
        ("completionLength", completionLength);
        ("tokensUsed", tokensUsed)])).

(** A method keeps a component [f] of the world when no run of it, returning
    or throwing, changes it. *)
Definition keeps {A B} (f : world → B) (m : M A) : Prop :=
  ∀ w, f (m w).2 = f w.

(** A method returns when no run of it throws. *)
Definition returns {A} (m : M A) : Prop :=
  ∀ w, ∃ a, (m w).1 = Ret a.

(** The key under which [getCompletion] caches a trigger. *)
Definition trigger_key (document : TextDocument.t) (linePrefix : string)
    (context : option string) : string :=
  CompletionService.getCacheKey (TextDocument.languageId document) linePrefix
    (default "" context).





(** The item a provider makes of a suggestion, if any: none for no
    suggestion and for the empty string. *)
Definition items_of (detail : string) (sortText : option string)
    (preselect : option bool) (suggestion : option string)
  : option (list CompletionItem.t) :=
  if JS.truthy_opt suggestion
  then Some [CompletionItem.mk (default "" suggestion) "Snippet"
               (default "" suggestion) detail sortText preselect]
  else None.

(** An answer of at most one item: nothing, or one snippet whose label and
    inserted text are the same non-empty suggestion. *)
Definition one_snippet (detail : string) (sortText : option string)
    (preselect : option bool) (answer : option (list CompletionItem.t))
  : Prop :=
  answer = None ∨
  ∃ s, s ≠ "" ∧
       answer = Some [CompletionItem.mk s "Snippet" s detail sortText
                        preselect].

(** The triggers [M31CompletionItemProvider] turns down itself: the feature
    is disabled, the trigger is a character outside its list, the language
    of the document is not enabled, or the trimmed text before the cursor
    is shorter than the configured minimum. *)
Definition declined (E : env) (ps : M31CompletionItemProvider.provider_settings)
    (document : TextDocument.t) (position : Position.t)
    (context : M31CompletionItemProvider.CompletionContext) : Prop :=
  autoComplete (config E) = false ∨
  (M31CompletionItemProvider.triggerKind context
   = M31CompletionItemProvider.TriggerCharacter ∧
   default "" (M31CompletionItemProvider.triggerCharacter context)
   ∉ M31CompletionItemProvider.triggerCharacters ps) ∨
  M31CompletionItemProvider.languages ps !! TextDocument.languageId document
  ≠ Some true ∨
  ∃ lineText,
    0 ≤ Position.line position ∧
    TextDocument.lines document !! Z.to_nat (Position.line position)
    = Some lineText ∧
    Z.of_nat (String.length
                (JS.trim (JS.substring lineText 0
                            (Position.character position))))
    < M31CompletionItemProvider.minWordLength ps.


End more_vocabulary.

Section telemetry_more_vocabulary.
Import TelemetryEvent TelemetryService.

(** The bounds of the batcher: fewer than 20 pending events, and between 1
    and 20 events in every batch a flush took. *)
Definition buffer_inv (st : TelemetryService.t) : Prop :=
  (length (pendingEvents st) < 20)%nat ∧
  Forall (λ batch, (1 ≤ length batch ≤ 20)%nat) (flushed st).

(** An event as a service with session [sid] and version [version] stamps
    it: that session, and the version and platform properties of the
    host. *)
Definition stamped (h : host) (sid version : string) (e : TelemetryEvent.t)
  : Prop :=
  TelemetryEvent.sessionId e = sid ∧
  ∃ props,
    properties e = Some props ∧
    props !! "extensionVersion" = Some (PString version) ∧
    props !! "vscodeVersion" = Some (PString (vscode_version h)) ∧
    props !! "os" = Some (PString (os_platform h +:+ "-" +:+ os_release h)).

Definition stamped_inv (h : host) (sid version : string)
    (st : TelemetryService.t) : Prop :=
  TelemetryService.sessionId st = sid ∧
  extensionVersion st = version ∧
  Forall (stamped h sid version) (pendingEvents st) ∧
  Forall (Forall (stamped h sid version)) (flushed st).

(** A call whose delivery step, if it comes to one, succeeds. *)
Definition delivers (c : call) : Prop :=
  match c with
  | TrackEvent _ deliver _ | Flush deliver => ∀ batch, deliver batch = Delivered
  | _ => True
  end.

(** The events a run of calls hands to an enabled service, stamped, in the
    order of the calls. *)
Fixpoint accepted (h : host) (st : TelemetryService.t) (cs : list call)
  : list TelemetryEvent.t :=
  match cs with
  | [] => []
  | c :: cs' =>
      match c with
      | TrackEvent now _ event =>
          if isEnabled st then [enrich h now st event] else []
      | _ => []
      end ++ accepted h (step h st c) cs'
  end.

(** All events the service holds or has handed over, oldest first. *)
Definition all_events (st : TelemetryService.t) : list TelemetryEvent.t :=
  concat (flushed st) ++ pendingEvents st.

End telemetry_more_vocabulary.

(** *** More sample data *)

Module MoreSamples.

Definition completing_env : Runtime.env :=
  Samples.sample_env Samples.sample_settings Samples.completing.

(** The world after one successful completion at [after_console]. *)
Definition warm_world : Runtime.world :=
  (CompletionService.getCompletion completing_env Samples.sample_document
     Samples.after_console None Samples.sample_world).2.

End MoreSamples.

(** *** [M31DocumentFormattingEditProvider] *)

Module M31DocumentFormattingEditProvider.
Import Runtime.

Definition line_feed : ascii := "010"%char.
Definition TAB : string := String "009"%char EmptyString.

(** [s.repeat(count)]: a [RangeError] for a negative count, here [None]. *)
Definition repeat (s : string) (count : Z) : option string :=
  if bool_decide (count < 0) then None
  else Some (Nat.iter (Z.to_nat count) (String.append s) EmptyString).

(** [text.split('\n')] *)
Fixpoint split_lines (text : string) : list string :=
  match text with
  | EmptyString => [EmptyString]
  | String a text' =>
      if decide (a = line_feed) then EmptyString :: split_lines text'
      else match split_lines text' with
           | l :: ls => String a l :: ls
           | [] => [String a EmptyString]
           end
  end.

(** [s.startsWith(c)], [s.endsWith(c)] and [s.includes(c)] for a single
    character. *)
Definition startsWith (s : string) (c : ascii) : bool :=
  match s with
  | String a _ => bool_decide (a = c)
  | EmptyString => false
  end.

Fixpoint endsWith (s : string) (c : ascii) : bool :=
  match s with
  | EmptyString => false
  | String a EmptyString => bool_decide (a = c)
  | String _ s' => endsWith s' c
  end.

Fixpoint includes (s : string) (c : ascii) : bool :=
  match s with
  | EmptyString => false
  | String a s' => bool_decide (a = c) || includes s' c
  end.

(** One turn of the loop of [formatText] over the local variables
    [formatted] and [indentLevel]. *)
Definition format_line (indentChar : string) (acc : string * Z)
    (line : string) : option (string * Z) :=
  let formatted := acc.1 in
  let indentLevel := acc.2 in
  let trimmedLine := JS.trim line in
  let indentLevel :=
    if startsWith trimmedLine "}" || startsWith trimmedLine ")"
       || startsWith trimmedLine "]"
    then Z.max 0 (indentLevel - 1)
    else indentLevel in
  formatted ←
    (if bool_decide (0 < String.length trimmedLine)%nat
     then indent ← repeat indentChar indentLevel;
          Some (formatted +:+ (indent +:+ trimmedLine +:+ JS.LF))
     else Some (formatted +:+ JS.LF));
  let indentLevel :=
    if endsWith trimmedLine "{"
       || endsWith trimmedLine "(" && negb (includes trimmedLine ")")
       || endsWith trimmedLine "[" && negb (includes trimmedLine "]")
    then indentLevel + 1
    else indentLevel in
  Some (formatted, indentLevel).

Fixpoint format_lines (indentChar : string) (lines : list string)
    (acc : string * Z) : option (string * Z) :=
  match lines with
  | [] => Some acc
  | line :: lines' =>
      acc' ← format_line indentChar acc line;
      format_lines indentChar lines' acc'
  end.

(** [formatText(text, languageId, insertSpaces, tabSize)]; [None] when a
    [repeat] throws. *)
Definition formatText (text languageId : string) (insertSpaces : bool)
    (tabSize : Z) : option string :=
  indentChar ← (if insertSpaces then repeat " " tabSize else Some TAB);
  acc ← format_lines indentChar (split_lines text) (EmptyString, 0);
  Some acc.1.

(** [vscode.TextEdit.replace(range, newText)], the range by its offsets
    in the document. *)
Record TextEdit := replace {
  range_start : Z;
  range_end : Z;
  newText : string
}.

(** [provideDocumentFormattingEdits(document, options, token)], with
    [settings.formatting.formatter], [token.isCancellationRequested],
    [document.getText()], [document.languageId], [options.insertSpaces]
    and [options.tabSize] as arguments. *)
Definition provideDocumentFormattingEdits (formatterType : string)
    (isCancellationRequested : bool) (documentText languageId : string)
    (insertSpaces : bool) (tabSize : Z) : M (option (list TextEdit)) :=
  try_catch
    (if bool_decide (formatterType = "default") then ret None
     else if isCancellationRequested then ret None
     else
       bind
         (match formatText documentText languageId insertSpaces tabSize with
          | Some formatted => ret formatted
          | None => throw (Error.mk "Invalid count value")
          end)
         (λ formattedText,
            if bool_decide (formattedText = documentText) then ret (Some [])
            else
              ret (Some [replace 0 (Z.of_nat (String.length documentText))
                           formattedText])))
    (λ error,
       bind (logger_error "Error formatting document") (λ _, ret None)).

End M31DocumentFormattingEditProvider.

(** *** Vocabulary of the escaping and the formatting *)

Section webview_vocabulary.

(** The entity of a character: itself, unless it is one of the five
    characters that [escapeHtml] replaces. *)
Definition entity (a : ascii) : string :=
  if decide (a = "&"%char) then "&amp;"
  else if decide (a = "<"%char) then "&lt;"
  else if decide (a = ">"%char) then "&gt;"
  else if decide (a = "034"%char) then "&quot;"
  else if decide (a = "'"%char) then "&#039;"
  else String a EmptyString.

(** A text with every character replaced by its entity, in one pass. *)
Fixpoint per_character (text : string) : string :=
  match text with
  | EmptyString => EmptyString
  | String a text' => entity a +:+ per_character text'
  end.

(** [text.includes(c)] for a single character. *)
Fixpoint occurs (c : ascii) (text : string) : bool :=
  match text with
  | EmptyString => false
  | String a text' => bool_decide (a = c) || occurs c text'
  end.

(** The number of occurrences of a character in a text. *)
Fixpoint occurrences (c : ascii) (text : string) : nat :=
  match text with
  | EmptyString => 0%nat
  | String a text' =>
      ((if bool_decide (a = c) then 1 else 0) + occurrences c text')%nat
  end.

(** The characters that open or close a tag or an attribute value. *)
Definition markup : list ascii :=
  ["<"%char; ">"%char; "034"%char; "'"%char].

End webview_vocabulary.

(** *** More samples: the settings of a provider *)

Module ProviderSamples.
Import M31CompletionItemProvider.

(** One trigger character, one language, words of three characters. *)
Definition sample_provider : provider_settings :=
  ProviderSettings ["."] {[ "javascript" := true ]} 3.

Definition typed (c : string) : CompletionContext :=
  mkContext TriggerCharacter (Some c).

Definition no_file_context : TextDocument.t → string := λ _, "".

End ProviderSamples.

(** ** Part II: the properties *)

Section result_cache.
Import ResultCache.

Implicit Types (c : cache) (k key : string) (e : entry).

Lemma cache_get_None k c : cache_get k c = None ↔ k ∉ c.*1.
Proof.
  induction c as [|[k' e'] c IH]; simpl.
  - split; [intros _; apply not_elem_of_nil | done].
  - case_decide; subst.
    + split; [done | intros []; left].
    + rewrite IH, not_elem_of_cons. simpl. tauto.
Qed.

Lemma cache_get_delete k c : cache_get k (cache_delete k c) = None.
Proof.
  apply cache_get_None. unfold cache_delete.
  intros ((k' & e) & -> & Hin)%list_elem_of_fmap.
  apply list_elem_of_filter in Hin as [Hne _]. done.
Qed.

Lemma cache_get_delete_ne k k' c :
  k ≠ k' → cache_get k (cache_delete k' c) = cache_get k c.
Proof.
  intros Hne. unfold cache_delete.
  induction c as [|[k1 e1] c IH]; [done|].
  rewrite filter_cons. simpl. repeat case_decide; subst; simpl; try done.
  - by rewrite decide_True.
  - by rewrite decide_False.
Qed.

Lemma getFromCache_fresh now k e c :
  cache_get k c = Some e → now - timestamp e < CACHE_TTL_MS →
  getFromCache now k c = (Some (result e), c).
Proof. intros Hk Hlt. unfold getFromCache. by rewrite Hk, bool_decide_true. Qed.

Lemma getFromCache_stale now k e c :
  cache_get k c = Some e → ¬ now - timestamp e < CACHE_TTL_MS →
  getFromCache now k c = (None, cache_delete k c).
Proof. intros Hk Hge. unfold getFromCache. by rewrite Hk, bool_decide_false. Qed.

Lemma getFromCache_absent now k c :
  cache_get k c = None → getFromCache now k c = (None, c).
Proof. intros Hk. unfold getFromCache. by rewrite Hk. Qed.

(** C4. An entry stored under [k] with creation time [timestamp e] is
    returned by [getFromCache] exactly when the clock reads strictly less
    than [timestamp e + 60000]; at or after that instant the lookup returns
    nothing and deletes the entry, and only that entry, from the store. *)
Theorem getFromCache_ttl now k e c :
  cache_get k c = Some e →
  ((getFromCache now k c).1 = Some (result e) ↔ now < timestamp e + 60000) ∧
  (now < timestamp e + 60000 → getFromCache now k c = (Some (result e), c)) ∧
  (timestamp e + 60000 ≤ now →
     (getFromCache now k c).1 = None ∧
     (getFromCache now k c).2 = cache_delete k c ∧
     cache_get k (getFromCache now k c).2 = None ∧
     ∀ k', k' ≠ k →
       cache_get k' (getFromCache now k c).2 = cache_get k' c).
Proof.
  intros Hk. split_and!.
  - destruct (decide (now - timestamp e < CACHE_TTL_MS)) as [Hlt|Hge].
    + rewrite (getFromCache_fresh _ _ _ _ Hk Hlt). simpl.
      unfold CACHE_TTL_MS in Hlt. split; [lia | done].
    + rewrite (getFromCache_stale _ _ _ _ Hk Hge). simpl.
      unfold CACHE_TTL_MS in Hge. split; [done | lia].
  - intros Hlt. apply getFromCache_fresh; [done|]. unfold CACHE_TTL_MS. lia.
  - intros Hge. rewrite (getFromCache_stale _ _ e); [|done|unfold CACHE_TTL_MS; lia].
    simpl. split_and!; [done | done | apply cache_get_delete |].
    intros k' Hne. by apply cache_get_delete_ne.
Qed.

Lemma getFromCache_ttl_witness :
  getFromCache 60004 "5" Samples.full_cache
  = (Some "r", Samples.full_cache) ∧
  (getFromCache 60005 "5" Samples.full_cache).1 = None.
Proof.
  destruct (getFromCache_ttl 60004 "5" (Entry "r" 5) Samples.full_cache)
    as (_ & Hfresh & _); [reflexivity|].
  destruct (getFromCache_ttl 60005 "5" (Entry "r" 5) Samples.full_cache)
    as (_ & _ & Hstale); [reflexivity|].
  split; [apply Hfresh; simpl; lia | apply Hstale; simpl; lia].
Defined.

Lemma insert_by_timestamp_perm x (l : cache) :
  insert_by_timestamp x l ≡ₚ x :: l.
Proof.
  induction l as [|y l IH]; simpl; [done|].
  case_bool_decide; [done|]. by rewrite IH, Permutation_swap.
Qed.

Lemma sort_by_timestamp_perm (l : cache) : sort_by_timestamp l ≡ₚ l.
Proof.
  induction l as [|x l IH]; simpl; [done|].
  by rewrite insert_by_timestamp_perm, IH.
Qed.

Lemma insert_by_timestamp_sorted x (l : cache) :
  StronglySorted older l → StronglySorted older (insert_by_timestamp x l).
Proof.
  induction 1 as [|y l Hl IH Hy]; simpl.
  - repeat constructor.
  - case_bool_decide as Hxy.
    + constructor; [by constructor|].
      constructor; [unfold older; lia|].
      eapply Forall_impl; [exact Hy|]. unfold older. intros; lia.
    + constructor; [done|].
      rewrite insert_by_timestamp_perm. constructor; [unfold older; lia | done].
Qed.

Lemma sort_by_timestamp_sorted (l : cache) :
  StronglySorted older (sort_by_timestamp l).
Proof.
  induction l as [|x l IH]; simpl; [constructor|].
  by apply insert_by_timestamp_sorted.
Qed.

(** A stable sort leaves a sorted list as it is. *)
Lemma sort_by_timestamp_id (l : cache) :
  StronglySorted older l → sort_by_timestamp l = l.
Proof.
  induction 1 as [|x l Hl IH Hx]; simpl; [done|].
  rewrite IH. destruct Hx as [|y l Hxy _]; simpl; [done|].
  by rewrite bool_decide_true by (unfold older in Hxy; lia).
Qed.

(** [keysToDelete.forEach(key => this.completionCache.delete(key))] *)
Lemma foldl_cache_delete (ks : list string) c :
  foldl (λ acc k, cache_delete k acc) c ks = filter (λ p, p.1 ∉ ks) c.
Proof.
  revert c. induction ks as [|k ks IH]; intros c; simpl.
  - induction c as [|p c IHc]; [done|].
    rewrite filter_cons_True by apply not_elem_of_nil. by f_equal.
  - rewrite IH. unfold cache_delete. rewrite list_filter_filter.
    apply list_filter_iff. intros p. rewrite not_elem_of_cons. tauto.
Qed.

Lemma cache_set_keys k e c :
  (cache_set k e c).*1 = if decide (k ∈ c.*1) then c.*1 else c.*1 ++ [k].
Proof.
  induction c as [|[k' e'] c IH]; cbn [cache_set fmap list_fmap fst].
  - case_decide as Hin; [by apply elem_of_nil in Hin | done].
  - destruct (decide (k = k')) as [->|Hne]; cbn [fmap list_fmap fst].
    + rewrite decide_True; [done | left].
    + rewrite IH. destruct (decide (k ∈ c.*1)).
      * rewrite decide_True; [done | by right].
      * rewrite decide_False; [done|]. rewrite not_elem_of_cons. tauto.
Qed.

Lemma cache_set_NoDup k e c : NoDup c.*1 → NoDup (cache_set k e c).*1.
Proof.
  intros Hnd. rewrite cache_set_keys. case_decide; [done|].
  apply NoDup_app. split_and!; [done | | apply NoDup_singleton].
  intros x Hx ->%list_elem_of_singleton. done.
Qed.

Lemma cache_set_length k e c :
  length (cache_set k e c)
  = if decide (k ∈ c.*1) then length c else S (length c).
Proof.
  rewrite <-(length_fmap fst (cache_set k e c)), cache_set_keys.
  case_decide; rewrite ?length_app, length_fmap; simpl; lia.
Qed.

Lemma cache_get_set k e c : cache_get k (cache_set k e c) = Some e.
Proof.
  induction c as [|[k' e'] c IH]; simpl.
  - by rewrite decide_True.
  - case_decide; simpl; [by rewrite decide_True | by rewrite decide_False].
Qed.

Lemma cache_get_set_ne k k' e c :
  k' ≠ k → cache_get k' (cache_set k e c) = cache_get k' c.
Proof.
  intros Hne. induction c as [|[k1 e1] c IH]; simpl.
  - by case_decide.
  - destruct (decide (k = k1)) as [->|]; simpl.
    + by repeat case_decide.
    + by rewrite IH.
Qed.

Lemma filter_none {A} (P : A → Prop) `{∀ x, Decision (P x)} (l : list A) :
  Forall (λ x, ¬ P x) l → filter P l = [].
Proof.
  induction 1 as [|x l Hx _ IH]; [done|]. by rewrite filter_cons_False.
Qed.

Lemma filter_all {A} (P : A → Prop) `{∀ x, Decision (P x)} (l : list A) :
  Forall P l → filter P l = l.
Proof.
  induction 1 as [|x l Hx _ IH]; [done|]. rewrite filter_cons_True by done.
  by f_equal.
Qed.

(** Deleting the keys of a prefix of a list with distinct keys leaves the
    rest of it. *)
Lemma filter_keys_prefix (l1 l2 : cache) :
  NoDup (l1 ++ l2).*1 → filter (λ p, p.1 ∉ l1.*1) (l1 ++ l2) = l2.
Proof.
  rewrite fmap_app, NoDup_app. intros (_ & Hdisj & _).
  rewrite filter_app, filter_none, filter_all; [done| |].
  - apply Forall_forall. intros p Hp Hin. apply (Hdisj _ Hin).
    by apply list_elem_of_fmap_2.
  - apply Forall_forall. intros p Hp Hnin. apply Hnin.
    by apply list_elem_of_fmap_2.
Qed.

(** What is left after the eviction, up to the order of the entries. *)
Lemma evict_perm (c : cache) :
  NoDup c.*1 →
  foldl (λ acc k, cache_delete k acc) c (keysToDelete c)
  ≡ₚ drop 20 (sort_by_timestamp c).
Proof.
  intros Hnd. rewrite foldl_cache_delete. unfold keysToDelete.
  set (s := sort_by_timestamp c).
  assert (Hs : c ≡ₚ take 20 s ++ drop 20 s)
    by (rewrite take_drop; symmetry; apply sort_by_timestamp_perm).
  rewrite Hs at 1. rewrite filter_keys_prefix; [done|].
  by rewrite <-Hs.
Qed.

Lemma filter_keys_NoDup (P : string * entry → Prop)
    `{∀ x, Decision (P x)} c :
  NoDup c.*1 → NoDup (filter P c).*1.
Proof.
  induction c as [|[k' e'] c IH]; [done|].
  rewrite fmap_cons, NoDup_cons. intros [Hk' Hnd].
  rewrite filter_cons. case_decide; [|by apply IH].
  rewrite fmap_cons. apply NoDup_cons. split; [|by apply IH].
  intros ([k2 e2] & Heq & Hin)%list_elem_of_fmap. simpl in *. subst.
  apply list_elem_of_filter in Hin as [_ Hin].
  apply Hk'. by apply (list_elem_of_fmap_2 fst) in Hin.
Qed.

Lemma cache_delete_NoDup k c : NoDup c.*1 → NoDup (cache_delete k c).*1.
Proof. apply filter_keys_NoDup. Qed.

Lemma cache_inv_empty : cache_inv [].
Proof. split; [constructor | simpl; lia]. Qed.

Lemma cache_inv_getFromCache now k c :
  cache_inv c → cache_inv (getFromCache now k c).2.
Proof.
  intros [Hnd Hlen]. unfold getFromCache.
  destruct (cache_get k c); [|done]. case_bool_decide; [done|]. simpl.
  split; [by apply cache_delete_NoDup|].
  unfold cache_delete. pose proof (length_filter (λ p, p.1 ≠ k) c). lia.
Qed.

Lemma addToCache_small now key res c :
  (length (cache_set key (Entry res now) c) ≤ 100)%nat →
  addToCache now key res c = cache_set key (Entry res now) c.
Proof. intros Hle. unfold addToCache. rewrite bool_decide_false; [done | lia]. Qed.

Lemma addToCache_large now key res c :
  (100 < length (cache_set key (Entry res now) c))%nat →
  addToCache now key res c
  = filter (λ p, p.1 ∉ keysToDelete (cache_set key (Entry res now) c))
      (cache_set key (Entry res now) c).
Proof.
  intros Hlt. unfold addToCache. rewrite bool_decide_true by lia.
  apply foldl_cache_delete.
Qed.

Lemma addToCache_invariant now key res c :
  cache_inv c → cache_inv (addToCache now key res c).
Proof.
  intros [Hnd Hlen].
  set (c1 := cache_set key (Entry res now) c).
  assert (Hnd1 : NoDup c1.*1) by by apply cache_set_NoDup.
  assert (Hlen1 : (length c1 ≤ 101)%nat).
  { subst c1. rewrite cache_set_length. case_decide; lia. }
  destruct (decide (100 < length c1)%nat) as [Hbig|Hsmall].
  - rewrite addToCache_large by done. fold c1. split.
    + by apply filter_keys_NoDup.
    + rewrite <-foldl_cache_delete, evict_perm, length_drop by done.
      rewrite sort_by_timestamp_perm. lia.
  - rewrite addToCache_small by (fold c1; lia). split; [done|].
    fold c1. lia.
Qed.

(** C3. In a store that satisfies the invariant of the cache (distinct keys,
    at most 100 entries), [addToCache] first writes the entry; if the store
    then holds more than 100 entries, the first 20 entries of the store
    sorted by creation time are evicted: 20 entries, none younger than any
    entry that stays, 81 entries stay, and a lookup of an evicted key finds
    nothing at any later instant. If the store holds at most 100 entries
    after the write, nothing is evicted. The invariant is kept. *)
Theorem addToCache_eviction now key res c :
  cache_inv c →
  let c1 := cache_set key (Entry res now) c in
  let evicted := take 20 (sort_by_timestamp c1) in
  let c2 := addToCache now key res c in
  ((100 < length c1)%nat →
     length evicted = 20%nat ∧
     length c2 = 81%nat ∧
     c1 ≡ₚ evicted ++ c2 ∧
     c2 = filter (λ p, p.1 ∉ evicted.*1) c1 ∧
     (∀ a b, a ∈ evicted → b ∈ c2 → timestamp a.2 ≤ timestamp b.2) ∧
     (∀ a, a ∈ evicted →
        cache_get a.1 c2 = None ∧ ∀ t, getFromCache t a.1 c2 = (None, c2))) ∧
  ((length c1 ≤ 100)%nat → c2 = c1) ∧
  cache_inv c2.
Proof.
  intros [Hnd Hlen] c1 evicted c2.
  assert (Hnd1 : NoDup c1.*1) by by apply cache_set_NoDup.
  assert (Hlen1 : (length c1 ≤ 101)%nat).
  { subst c1. rewrite cache_set_length. case_decide; lia. }
  assert (Hsort : length (sort_by_timestamp c1) = length c1)
    by by rewrite sort_by_timestamp_perm.
  split_and!.
  - intros Hbig.
    assert (Hc2 : c2 = filter (λ p, p.1 ∉ evicted.*1) c1)
      by by apply addToCache_large.
    assert (Hperm : c2 ≡ₚ drop 20 (sort_by_timestamp c1)).
    { subst c2. unfold addToCache. rewrite bool_decide_true by (fold c1; lia).
      by apply evict_perm. }
    assert (Hev : ∀ a, a ∈ evicted → cache_get a.1 c2 = None).
    { intros a Ha. apply cache_get_None. rewrite Hc2.
      intros ([k' e'] & Hk & Hin)%list_elem_of_fmap.
      apply list_elem_of_filter in Hin as [Hnin _]. apply Hnin.
      simpl in *. subst k'. by apply list_elem_of_fmap_2. }
    split_and!.
    + subst evicted. rewrite length_take. lia.
    + rewrite Hperm, length_drop. lia.
    + rewrite Hperm. subst evicted. rewrite take_drop.
      symmetry. apply sort_by_timestamp_perm.
    + done.
    + intros a b Ha Hb. rewrite Hperm in Hb.
      apply (StronglySorted_app_1_elem_of older
               evicted (drop 20 (sort_by_timestamp c1))); [|done|done].
      subst evicted. rewrite take_drop. apply sort_by_timestamp_sorted.
    + intros a Ha. split; [by apply Hev|].
      intros t. apply getFromCache_absent. by apply Hev.
  - intros Hle. by apply addToCache_small.
  - by apply addToCache_invariant.
Qed.

(** Every store the service can reach satisfies the invariant. *)
Lemma cache_inv_run calls : cache_inv (cache_run calls).
Proof.
  unfold cache_run. generalize cache_inv_empty. generalize (@nil (string * entry)).
  induction calls as [|call calls IH]; intros c Hinv; [done|].
  simpl. apply IH. destruct call as [now key|now key res]; simpl.
  - by apply cache_inv_getFromCache.
  - by apply addToCache_invariant.
Qed.

Lemma addToCache_eviction_witness :
  length (addToCache 1000 "new" "x" Samples.full_cache) = 81%nat ∧
  getFromCache 1001 "0" (addToCache 1000 "new" "x" Samples.full_cache)
  = (None, addToCache 1000 "new" "x" Samples.full_cache).
Proof.
  destruct (addToCache_eviction 1000 "new" "x" Samples.full_cache)
    as (Hbig & _ & _).
  - split; [apply (bool_decide_unpack _); vm_compute; exact I | vm_compute; lia].
  - destruct Hbig as (_ & Hlen & _ & _ & _ & Hgone); [vm_compute; lia|].
    split; [exact Hlen|].
    apply (Hgone ("0", Entry "r" 0)). vm_compute. left.
Defined.

(** The eviction on the full sample cache removes the keys ["0"] .. ["19"]
    and keeps the entry just written. *)
Example addToCache_full_cache :
  (addToCache 1000 "new" "x" Samples.full_cache).*1
  = (pretty <$> seq 20 80) ++ ["new"].
Proof. vm_compute. reflexivity. Qed.

End result_cache.

Section telemetry.
Import TelemetryService.

Implicit Types (st : TelemetryService.t) (event : TelemetryEvent.t).
Implicit Types (h : host) (deliver : sink).

Lemma flush_skip deliver st :
  isEnabled st = false ∨ pendingEvents st = [] → flush deliver st = st.
Proof.
  intros [Hoff|Hnil]; unfold flush.
  - by rewrite Hoff.
  - rewrite Hnil. simpl. by rewrite orb_true_r.
Qed.

Lemma flush_delivered deliver st :
  isEnabled st = true → pendingEvents st ≠ [] →
  deliver (pendingEvents st) = Delivered →
  flush deliver st
  = record_flushed (pendingEvents st) (set_pendingEvents [] st).
Proof.
  intros Hon Hne Hd. unfold flush. rewrite Hon, Hd. simpl.
  rewrite bool_decide_false; [done|]. by destruct (pendingEvents st).
Qed.

(** What the [catch] branch of [flush] leaves behind. *)
Lemma flush_throws deliver st :
  isEnabled st = true → pendingEvents st ≠ [] →
  deliver (pendingEvents st) = DeliveryThrows →
  pendingEvents (flush deliver st) = [] ∧
  flushed (flush deliver st) = flushed st ∧
  errorLog (flush deliver st)
  = errorLog st ++ ["Error flushing telemetry events"].
Proof.
  intros Hon Hne Hd. unfold flush. rewrite Hon, Hd. simpl.
  rewrite bool_decide_false; [done|]. by destruct (pendingEvents st).
Qed.


(** C10. With telemetry disabled, or with an empty buffer, [flush] returns
    the service as it was: nothing is handed to the delivery step and the
    buffer is untouched. Hence no sequence of flushes (and of [trackEvent]
    calls, which are no-ops then) changes a disabled service, whatever was
    buffered before it was disabled. *)
Theorem flush_noop_when_disabled_or_empty h deliver st :
  (isEnabled st = false ∨ pendingEvents st = [] → flush deliver st = st) ∧
  (isEnabled st = false →
   ∀ calls,
     Forall (λ c, match c with
                  | Flush _ | TrackEvent _ _ _ => True
                  | _ => False
                  end) calls →
     run h st calls = st).
Proof.
  split; [apply flush_skip|].
  intros Hoff calls Hcalls. unfold run.
  induction Hcalls as [|c calls Hc _ IH]; [done|]. simpl.
  destruct c; try done; simpl.
  - unfold trackEvent. by rewrite Hoff.
  - rewrite flush_skip by auto. done.
Qed.

Lemma flush_noop_when_disabled_or_empty_witness :
  let st := disable (Samples.service_with 3) in
  length (pendingEvents st) = 3%nat ∧
  flush Samples.always_delivered st = st ∧
  run Samples.sample_host st
    [Flush Samples.always_delivered;
     TrackEvent 7 Samples.always_delivered (Samples.sample_event 7);
     Flush Samples.never_delivered] = st.
Proof.
  destruct (flush_noop_when_disabled_or_empty Samples.sample_host
              Samples.always_delivered (disable (Samples.service_with 3)))
    as [Hflush Hrun].
  split_and!; [reflexivity | apply Hflush; left; reflexivity |].
  apply Hrun; [reflexivity|]. repeat constructor.
Defined.

Lemma trackEvent_disabled h now deliver event st :
  isEnabled st = false → trackEvent h now deliver event st = st.
Proof. intros Hoff. unfold trackEvent. by rewrite Hoff. Qed.

Lemma trackEvent_enabled h now deliver event st :
  isEnabled st = true →
  trackEvent h now deliver event st
  = let st1 := set_pendingEvents
                 (pendingEvents st ++ [enrich h now st event]) st in
    if bool_decide (20 ≤ length (pendingEvents st1))%nat
    then flush deliver st1 else st1.
Proof. intros Hon. unfold trackEvent. by rewrite Hon. Qed.

(** The buffer after a flush of an enabled service is empty, whatever the
    delivery does. *)
Lemma flush_enabled_pending deliver st :
  isEnabled st = true → pendingEvents (flush deliver st) = [].
Proof.
  intros Hon. unfold flush. rewrite Hon. simpl.
  case_bool_decide as Hlen.
  - by destruct (pendingEvents st).
  - by destruct (deliver (pendingEvents st)).
Qed.

(** C7. With telemetry enabled, a [trackEvent] that brings the buffer to 20
    events (or more) runs [flush] on that buffer before it returns; if the
    delivery succeeds the whole batch, the new event last, is handed over
    and the buffer is empty. Below 20 events no flush runs. In every case
    the buffer holds fewer than 20 events when [trackEvent] returns. *)
Theorem trackEvent_batch_flush h now deliver event st :
  isEnabled st = true →
  let batch := pendingEvents st ++ [enrich h now st event] in
  let st' := trackEvent h now deliver event st in
  ((20 ≤ length batch)%nat →
     st' = flush deliver (set_pendingEvents batch st) ∧
     (deliver batch = Delivered →
        pendingEvents st' = [] ∧ flushed st' = flushed st ++ [batch])) ∧
  ((length batch < 20)%nat →
     pendingEvents st' = batch ∧ flushed st' = flushed st) ∧
  (length (pendingEvents st') < 20)%nat.
Proof.
  intros Hon batch st'. subst st'. rewrite trackEvent_enabled by done.
  cbn zeta. fold batch.
  change (pendingEvents (set_pendingEvents batch st)) with batch.
  split_and!.
  - intros Hbig. rewrite bool_decide_true by done. split; [done|].
    intros Hd. rewrite flush_delivered; [done|done| |done].
    simpl. subst batch. by destruct (pendingEvents st).
  - intros Hsmall. rewrite bool_decide_false by lia. done.
  - case_bool_decide as Hlen.
    + rewrite flush_enabled_pending by done. simpl. lia.
    + simpl. lia.
Qed.

Lemma trackEvent_batch_flush_witness :
  let st := Samples.service_with 19 in
  let st' := trackEvent Samples.sample_host 20 Samples.always_delivered
               (Samples.sample_event 20) st in
  length (pendingEvents st) = 19%nat ∧
  pendingEvents st' = [] ∧
  (length <$> flushed st') = [20%nat].
Proof.
  destruct (trackEvent_batch_flush Samples.sample_host 20
              Samples.always_delivered (Samples.sample_event 20)
              (Samples.service_with 19)) as ([_ Hflush] & _ & _).
  - reflexivity.
  - vm_compute. lia.
  - destruct Hflush as [Hpending Hflushed]; [reflexivity|].
    split_and!; [reflexivity | exact Hpending |].
    cbv zeta. rewrite Hflushed. reflexivity.
Defined.

(** The session identifier is written once, by the constructor. *)
Lemma step_sessionId h st c : sessionId (step h st c) = sessionId st.
Proof.
  destruct c as [now deliver event|deliver| | |b]; simpl; try done.
  - unfold trackEvent. destruct (isEnabled st); [|done]. simpl.
    case_bool_decide; [|done]. unfold flush. simpl.
    destruct (_ || _); [done|]. by destruct (deliver _).
  - unfold flush. destruct (_ || _); [done|]. by destruct (deliver _).
Qed.

Lemma flush_session_inv deliver st :
  session_inv st → session_inv (flush deliver st).
Proof.
  intros [Hp Hf]. unfold flush. destruct (_ || _); [done|].
  destruct (deliver _); split; simpl; try done.
  apply Forall_app. split; [done|]. by constructor.
Qed.

Lemma step_session_inv h st c : session_inv st → session_inv (step h st c).
Proof.
  intros Hinv. destruct c as [now deliver event|deliver| | |b]; simpl;
    try done; [|by apply flush_session_inv].
  unfold trackEvent. destruct (isEnabled st); [|done]. simpl.
  assert (session_inv (set_pendingEvents
            (pendingEvents st ++ [enrich h now st event]) st)) as Hinv'.
  { destruct Hinv as [Hp Hf]. split; simpl; [|done].
    apply Forall_app. split; [done|]. by repeat constructor. }
  case_bool_decide; [by apply flush_session_inv | done].
Qed.

(** C8. After any sequence of calls on a service constructed with the
    identifier [uuid1], the service still has that identifier, and every
    event in the pending buffer, and every event of every batch a flush
    took, carries it, whatever [sessionId] the callers had put on their
    events. *)
Theorem pending_events_carry_session_id h uuid1 uuid2 enabled calls :
  let st := run h (constructor uuid1 uuid2 enabled) calls in
  sessionId st = uuid1 ∧
  Forall (λ e, TelemetryEvent.sessionId e = uuid1) (pendingEvents st) ∧
  Forall (Forall (λ e, TelemetryEvent.sessionId e = uuid1)) (flushed st).
Proof.
  cbv zeta.
  assert (∀ st, session_inv st →
            sessionId (run h st calls) = sessionId st ∧
            session_inv (run h st calls)) as Hrun.
  { unfold run. induction calls as [|c calls IH]; intros st Hinv; [done|].
    simpl. destruct (IH (step h st c)) as [Hid Hinv'];
      [by apply step_session_inv|].
    by rewrite Hid, step_sessionId. }
  destruct (Hrun (constructor uuid1 uuid2 enabled)) as (Hid & Hp & Hf).
  { split; simpl; constructor. }
  rewrite Hid in Hp, Hf. done.
Qed.

(** The caller's identifier is overwritten. *)
Example trackEvent_overwrites_sessionId :
  TelemetryEvent.sessionId <$>
    pendingEvents (trackEvent Samples.sample_host 5 Samples.always_delivered
                     (Samples.sample_event 5) Samples.fresh_service)
  = ["session-1"].
Proof. reflexivity. Qed.

End telemetry.

Section services.
Import Runtime.
Local Open Scope js_scope.

Implicit Types (E : env) (w : world).

(** [trackEvent] through the world: it returns, and the service took one
    call of [TelemetryService.trackEvent]. *)
Lemma telemetryService_trackEvent_spec E event w :
  ∃ w' now,
    telemetryService_trackEvent E event w = (Ret (), w') ∧
    telemetry w'
    = TelemetryService.trackEvent (host E) now (deliver E) event (telemetry w) ∧
    activeSessions w' = activeSessions w ∧
    quiet w w'.
Proof.
  unfold telemetryService_trackEvent, bind, gets, ret, modify, date_now.
  destruct (TelemetryService.isEnabled (telemetry w)) eqn:Hon; simpl.
  - case_bool_decide; simpl; eexists _, _; (split; [reflexivity|]);
      by repeat split.
  - exists w, 0. split; [done|].
    rewrite trackEvent_disabled by done. by repeat split.
Qed.

Import AgentService.

Lemma startSession_eq E cap w :
  startSession E cap w
  = (Ret (session_name cap (clock E (ticks w)) (random E (draws w))),
     session_started E cap w).
Proof. reflexivity. Qed.

(** [endSession] on a recorded session returns; the telemetry service took
    one [trackEvent] of a [FEATURE_USED] event with the given flag, and the
    session is gone. *)
Lemma endSession_spec E sid cap b w s :
  activeSessions w !! sid = Some s →
  ∃ w' now,
    endSession E sid cap b w = (Ret (), w') ∧
    telemetry w'
    = TelemetryService.trackEvent (host E) now (deliver E)
        (feature_used (clock E (S (ticks w))) (apiSessionId w)
           (selectedModel w) cap b (clock E (ticks w) - startTime s))
        (telemetry w) ∧
    activeSessions w' = delete sid (activeSessions w) ∧
    quiet w w'.
Proof.
  intros Hs. unfold endSession, bind at 1, gets at 1. rewrite Hs.
  unfold bind at 1, date_now at 1. unfold bind at 1, date_now at 1.
  unfold bind at 1, gets at 1. unfold bind at 1, gets at 1.
  unfold bind at 1. cbn [selectedModel apiSessionId set_ticks ticks].
  match goal with
  | |- context [telemetryService_trackEvent E ?ev ?w1] =>
      destruct (telemetryService_trackEvent_spec E ev w1)
        as (w' & now & Heq & Htel & Hact & Hq)
  end.
  rewrite Heq. unfold modify. eexists _, now. split; [reflexivity|].
  simpl. rewrite Htel, Hact. simpl.
  destruct Hq as (?&?&?&?&?). by repeat split.
Qed.

Lemma endSession_absent E sid cap b w :
  activeSessions w !! sid = None →
  endSession E sid cap b w = (Ret (), w).
Proof. intros Hs. unfold endSession, bind, gets. by rewrite Hs. Qed.

Lemma model_or_selected_eq modelId w :
  model_or_selected modelId w = (Ret (chosen_model modelId w), w).
Proof.
  unfold model_or_selected, chosen_model. by destruct (JS.truthy_opt modelId).
Qed.

Lemma await_api_eq {Req Resp} (record : Req → outbound)
    (api : endpoint Req Resp) request w :
  await_api record api request w
  = (api request, set_network (network w ++ [record request]) w).
Proof.
  unfold await_api, bind, modify. simpl. by destruct (api request).
Qed.

Lemma chosen_model_started modelId E cap w :
  chosen_model modelId (session_started E cap w) = chosen_model modelId w.
Proof. reflexivity. Qed.

Lemma selectedModel_started E cap w :
  selectedModel (session_started E cap w) = selectedModel w.
Proof. reflexivity. Qed.

(** Runs the [endSession] at the head of the goal. *)
Ltac run_endSession :=
  unfold bind at 1;
  match goal with
  | |- context [endSession ?E ?sid ?cap ?b ?w1] =>
      let w' := fresh "w'" in
      let Heq := fresh "Heq" in
      let Hq := fresh "Hq" in
      edestruct (endSession_spec E sid cap b w1)
        as (w' & ? & Heq & _ & _ & Hq);
      [ simpl; apply lookup_insert_eq
      | rewrite Heq; destruct Hq as (_ & _ & _ & Hq & _) ]
  end.

(** The proof shared by the five commands, once the command is unfolded. *)
Ltac one_shot api :=
  unfold bind at 1; rewrite startSession_eq; unfold try_catch;
  unfold bind at 1;
  first [rewrite model_or_selected_eq | unfold gets at 1];
  unfold bind at 1; rewrite await_api_eq;
  rewrite ?chosen_model_started, ?selectedModel_started;
  destruct (api _ _) as [[value|err]|e];
  [ | | unfold bind at 1, logger_error at 1, modify at 1 ];
  run_endSession; eexists; (split; [reflexivity|]);
  match goal with H : network _ = _ |- _ => rewrite H end; reflexivity.

(** C9. Each one-shot command returns; it never throws. Its result is a
    [Success] with the produced value when the network call succeeded, a
    [Failure] with an error when the client reported a failure, and a
    [Failure] with the thrown error when the call threw. Each command issues
    exactly one network call. *)
Theorem one_shot_commands_return_results E w :
  (∀ params,
     let request :=
       WithModel params
         (chosen_model (CodeGenerationParams.modelId params) w) in
     ∃ w', generateCode E params w
           = (Ret (result_of "Failed to generate code: "
                     CodeGenerationResponse.code (api_generateCode E request)),
              w') ∧
           network w' = network w ++ [PostCodeGenerate request]) ∧
  (∀ params,
     let request :=
       WithModel params
         (chosen_model (CodeExplanationParams.modelId params) w) in
     ∃ w', explainCode E params w
           = (Ret (result_of "Failed to explain code: "
                     CodeExplanationResponse.explanation
                     (api_explainCode E request)),
              w') ∧
           network w' = network w ++ [PostCodeExplain request]) ∧
  (∀ params,
     let request :=
       WithModel params
         (chosen_model (CommitMessageGenerationParams.modelId params) w) in
     ∃ w', generateCommitMessage E params w
           = (Ret (result_of "Failed to generate commit message: "
                     CommitMessageGenerationResponse.message
                     (api_generateCommitMessage E request)),
              w') ∧
           network w' = network w ++ [PostCommitMessage request]) ∧
  (∀ params,
     let request :=
       WithModel params
         (chosen_model (LogGenerationParams.modelId params) w) in
     ∃ w', addLogging E params w
           = (Ret (result_of "Failed to add logging: "
                     LogGenerationResponse.code (api_addLogging E request)),
              w') ∧
           network w' = network w ++ [PostAddLogging request]) ∧
  (∀ message conversation,
     let request :=
       ChatCompletionRequest.mk (chat_messages message conversation)
         (selectedModel w) in
     ∃ w', chat E message conversation w
           = (Ret (result_of "Failed to get chat response: "
                     (λ v, ChatMessageRole.content
                             (ChatCompletionResponse.message v))
                     (api_getChatCompletion E request)),
              w') ∧
           network w' = network w ++ [PostChatCompletions request]).
Proof.
  split_and!; intros; subst request.
  - unfold generateCode. one_shot api_generateCode.
  - unfold explainCode. one_shot api_explainCode.
  - unfold generateCommitMessage. one_shot api_generateCommitMessage.
  - unfold addLogging. one_shot api_addLogging.
  - unfold chat. one_shot api_getChatCompletion.
Qed.

(** **** The prompt of a completion request *)

Lemma lineAt_Some document i l w :
  0 ≤ i → TextDocument.lines document !! Z.to_nat i = Some l →
  lineAt document i w = (Ret l, w).
Proof.
  intros Hi Hl. unfold lineAt. rewrite bool_decide_true by done.
  by rewrite Hl.
Qed.

Lemma string_app_assoc (a b c : string) : (a +:+ b) +:+ c = a +:+ (b +:+ c).
Proof.
  induction a as [|x a IH]; [done|].
  change (String x ((a +:+ b) +:+ c) = String x (a +:+ b +:+ c)).
  by f_equal.
Qed.

Lemma string_app_empty_r (a : string) : a +:+ "" = a.
Proof.
  induction a as [|x a IH]; [done|].
  change (String x (a +:+ "") = String x a). by f_equal.
Qed.

(** The first loop of [buildCompletionRequest] inside the document. *)
Lemma for_each_lines_before document (n : nat) : ∀ (first : Z) acc w,
  0 ≤ first →
  first + Z.of_nat n ≤ TextDocument.lineCount document →
  for_each (seqZ first (Z.of_nat n))
    (λ promptText i,
       let* l := lineAt document i in ret (promptText +:+ l +:+ JS.LF))
    acc w
  = (Ret (acc +:+ with_line_feeds
                    (sublines document first (first + Z.of_nat n))), w).
Proof.
  unfold sublines, TextDocument.lineCount.
  induction n as [|n IH]; intros first acc w Hfirst Hlast.
  - replace (Z.to_nat (first + Z.of_nat 0 - first)) with 0%nat by lia.
    simpl. by rewrite string_app_empty_r.
  - rewrite seqZ_cons by lia. simpl for_each. unfold bind at 1.
    destruct (lookup_lt_is_Some_2 (TextDocument.lines document)
                (Z.to_nat first)) as [l Hl]; [lia|].
    unfold bind at 1. rewrite (lineAt_Some _ _ l) by done. unfold ret at 1.
    replace (Z.pred (Z.of_nat (S n))) with (Z.of_nat n) by lia.
    rewrite IH by lia.
    replace (Z.to_nat (first + Z.of_nat (S n) - first)) with (S n) by lia.
    replace (Z.to_nat (Z.succ first + Z.of_nat n - Z.succ first)) with n
      by lia.
    rewrite (drop_S _ l (Z.to_nat first)) by done.
    replace (Z.to_nat (Z.succ first)) with (S (Z.to_nat first)) by lia.
    simpl. by rewrite !string_app_assoc.
Qed.

(** The second loop inside the document: it returns and writes nothing. *)
Lemma for_each_lines_after document position (n : nat) : ∀ (first : Z) acc w,
  0 ≤ first →
  first + Z.of_nat n ≤ TextDocument.lineCount document →
  ∃ contextAfter,
    for_each (seqZ first (Z.of_nat n))
      (λ contextAfter i,
         let* l := lineAt document i in
         if bool_decide (i = Position.line position)
         then ret (contextAfter
                   +:+ JS.substring_from l (Position.character position)
                   +:+ JS.LF)
         else ret (contextAfter +:+ l +:+ JS.LF))
      acc w
    = (Ret contextAfter, w).
Proof.
  unfold TextDocument.lineCount.
  induction n as [|n IH]; intros first acc w Hfirst Hlast.
  - by exists acc.
  - rewrite seqZ_cons by lia. simpl for_each. unfold bind at 1.
    destruct (lookup_lt_is_Some_2 (TextDocument.lines document)
                (Z.to_nat first)) as [l Hl]; [lia|].
    unfold bind at 1. rewrite (lineAt_Some _ _ l) by done.
    replace (Z.pred (Z.of_nat (S n))) with (Z.of_nat n) by lia.
    case_bool_decide; unfold ret at 1; apply IH; lia.
Qed.

(** What [buildCompletionRequest] returns for a cursor inside the document:
    the prompt is [code_prompt]; neither [linesToContextAfter] nor any text
    after the cursor enters it. *)
Lemma buildCompletionRequest_prompt E document position linePrefix context w :
  0 ≤ Position.line position < TextDocument.lineCount document →
  CompletionService.buildCompletionRequest E document position linePrefix
    context w
  = (Ret (CompletionRequest.mk
            (code_prompt (config E) document position linePrefix context)
            (configuredModel (config E)) (maxTokens (config E))
            (temperature (config E)) [JS.LF +:+ JS.LF; "```"]),
     w).
Proof.
  intros Hline. unfold CompletionService.buildCompletionRequest, code_prompt.
  cbv zeta.
  set (cursorLine := Position.line position) in *.
  set (startLine := Z.max 0 (cursorLine - linesToContextBefore (config E))).
  set (endLine := Z.min _ _).
  unfold bind at 1.
  assert (for_each (seqZ startLine (cursorLine - startLine))
            (λ promptText i,
               let* l := lineAt document i in
               ret (promptText +:+ l +:+ JS.LF)) "" w
          = (Ret (with_line_feeds (sublines document startLine cursorLine)),
             w)) as ->.
  { destruct (decide (cursorLine - startLine ≤ 0)) as [Hle|Hgt].
    - rewrite seqZ_nil by done. unfold sublines.
      replace (Z.to_nat (cursorLine - startLine)) with 0%nat by lia. done.
    - replace (cursorLine - startLine)
        with (Z.of_nat (Z.to_nat (cursorLine - startLine))) by lia.
      rewrite for_each_lines_before by lia.
      replace (startLine + Z.of_nat (Z.to_nat (cursorLine - startLine)))
        with cursorLine by lia.
      done. }
  unfold bind at 1.
  destruct (for_each_lines_after document position
              (Z.to_nat (endLine + 1 - cursorLine)) cursorLine "" w)
    as [contextAfter Hafter]; [lia | lia |].
  destruct (decide (endLine + 1 - cursorLine ≤ 0)) as [Hle|Hgt].
  - rewrite seqZ_nil by done. simpl. unfold ret, header.
    destruct (JS.truthy_opt context); [|done].
    by rewrite !string_app_assoc.
  - rewrite Z2Nat.id in Hafter by lia. subst cursorLine. rewrite Hafter.
    unfold ret, header. destruct (JS.truthy_opt context); [|done].
    by rewrite !string_app_assoc.
Qed.

(** C5, at a failing input. Three lines of code, the cursor after
    ["console."] on the second, ten lines before and five after
    configured: the prompt of the request is ["const a = 1;\nconsole."].
    It lacks the text after the cursor that the design document counts in,
    ["log(a);\nreturn a;\n    \n"], and it is the same when no line after
    the cursor is configured. *)
Theorem buildCompletionRequest_drops_context_after :
  let doc := Samples.sample_document in
  let pos := Samples.after_console in
  let prompt_with (linesAfter : Z) :=
    match CompletionService.buildCompletionRequest
            (Samples.sample_env (Settings true "standard" 10 linesAfter 256 0)
               Samples.offline)
            doc pos "console." None Samples.sample_world with
    | (Ret request, _) => Some (CompletionRequest.prompt request)
    | (Throw _, _) => None
    end in
  prompt_with 5 = Some ("const a = 1;" +:+ JS.LF +:+ "console.") ∧
  prompt_with 0 = prompt_with 5 ∧
  spec_prompt Samples.sample_settings doc pos "console." None
  = "const a = 1;" +:+ JS.LF +:+ "console."
    +:+ "log(a);" +:+ JS.LF +:+ "return a;" +:+ JS.LF +:+ "    " +:+ JS.LF ∧
  prompt_with 5
  ≠ Some (spec_prompt Samples.sample_settings doc pos "console." None).
Proof. vm_compute. split_and!; done. Qed.

(** **** Failed completion requests *)

(** A trigger that misses the cache and whose network call fails: the
    call is issued, an error is logged, nothing is returned, and no other
    part of the world changes; in particular the telemetry service takes no
    event. *)
Lemma getCompletion_failure E document position context w lineText :
  autoComplete (config E) = true →
  0 ≤ Position.line position →
  TextDocument.lines document !! Z.to_nat (Position.line position)
  = Some lineText →
  let linePrefix := JS.substring lineText 0 (Position.character position) in
  let request :=
    completion_request E document position linePrefix context in
  JS.trim linePrefix ≠ "" →
  ResultCache.cache_get
    (CompletionService.getCacheKey (TextDocument.languageId document)
       linePrefix (default "" context))
    (completionCache w) = None →
  ∀ msg,
    (∃ err, api_getCompletion E request = Ret (Failure err) ∧
            msg = "Error getting completion") ∨
    (∃ e, api_getCompletion E request = Throw e ∧
          msg = "Unexpected error in code completion") →
    CompletionService.getCompletion E document position context w
    = (Ret None,
       set_errors (errors w ++ [msg])
         (set_network (network w ++ [PostCompletions request])
            (set_ticks (S (ticks w)) w))).
Proof.
  intros Hauto Hline Hl linePrefix request Hprefix Hmiss msg Hfail.
  assert (Hcount : Position.line position < TextDocument.lineCount document).
  { apply lookup_lt_Some in Hl. unfold TextDocument.lineCount. lia. }
  unfold CompletionService.getCompletion, try_catch.
  unfold bind at 1, date_now at 1. rewrite Hauto. cbn [negb].
  unfold bind at 1. rewrite (lineAt_Some _ _ lineText) by done.
  fold linePrefix. unfold JS.truthy at 1.
  rewrite bool_decide_false by done. cbn [negb].
  unfold bind at 1, CompletionService.getFromCache at 1.
  unfold bind at 1, gets at 1. cbn [completionCache set_ticks].
  rewrite Hmiss. unfold ret at 1. cbn [JS.truthy_opt].
  unfold bind at 1. rewrite buildCompletionRequest_prompt by (split; done).
  fold (completion_request E document position linePrefix context).
  fold request. unfold bind at 1. rewrite await_api_eq.
  destruct Hfail as [(err & -> & ->)|(e & -> & ->)]; reflexivity.
Qed.

(** C1, at two failing inputs. The cursor stands after ["console."], the
    cache is empty, telemetry is enabled. When the client reports a failure,
    and when the call throws, [getCompletion] issues one network call,
    returns nothing and logs an error, and the telemetry service is as it
    was: no event records the failed attempt. Through
    [AgentService.getCodeCompletion] the only event is the [FEATURE_USED]
    event of the session envelope, and it says [success = true]. *)
Theorem getCompletion_failure_emits_no_event :
  let doc := Samples.sample_document in
  let pos := Samples.after_console in
  let w := Samples.sample_world in
  let failing := Samples.sample_env Samples.sample_settings Samples.offline in
  let throwing := Samples.sample_env Samples.sample_settings Samples.throwing in
  let r1 := CompletionService.getCompletion failing doc pos None w in
  let r2 := CompletionService.getCompletion throwing doc pos None w in
  let r3 := getCodeCompletion failing doc pos None w in
  (r1.1 = Ret None ∧ length (network r1.2) = 1%nat ∧
   errors r1.2 = ["Error getting completion"] ∧
   telemetry r1.2 = telemetry w) ∧
  (r2.1 = Ret None ∧ length (network r2.2) = 1%nat ∧
   errors r2.2 = ["Unexpected error in code completion"] ∧
   telemetry r2.2 = telemetry w) ∧
  (r3.1 = Ret None ∧ length (network r3.2) = 1%nat ∧
   TelemetryService.flushed (telemetry r3.2) = [] ∧
   (λ e, (TelemetryEvent.type e,
          default ∅ (TelemetryEvent.properties e) !! "success"))
     <$> TelemetryService.pendingEvents (telemetry r3.2)
   = [(TelemetryEvent.FEATURE_USED, Some (TelemetryEvent.PBool true))]).
Proof. vm_compute. done. Qed.

(** On success the same trigger yields one [CODE_COMPLETED] event. *)
Example getCompletion_success_emits_one_event :
  let r := CompletionService.getCompletion
             (Samples.sample_env Samples.sample_settings Samples.completing)
             Samples.sample_document Samples.after_console None
             Samples.sample_world in
  r.1 = Ret (Some "log(a)") ∧ length (network r.2) = 1%nat ∧
  TelemetryEvent.type <$> TelemetryService.pendingEvents (telemetry r.2)
  = [TelemetryEvent.CODE_COMPLETED].
Proof. vm_compute. done. Qed.

(** **** Triggers that are no-ops *)

Lemma getCompletion_noop E document position context w :
  noop_trigger E document position →
  CompletionService.getCompletion E document position context w
  = (Ret None, set_ticks (S (ticks w)) w).
Proof.
  intros Hnoop. unfold CompletionService.getCompletion, try_catch.
  unfold bind at 1, date_now at 1.
  destruct (autoComplete (config E)) eqn:Hauto; [|done].
  destruct Hnoop as [?|(lineText & Hline & Hl & Hblank)]; [congruence|].
  cbn [negb]. unfold bind at 1. rewrite (lineAt_Some _ _ lineText) by done.
  rewrite Hblank. reflexivity.
Qed.

(** C6, as the code has it. On a no-op trigger
    [CompletionService.getCompletion] reads the clock once and returns
    nothing: no network call, no telemetry event, the cache untouched.
    [AgentService.getCodeCompletion], the entry point of the editor, wraps
    it in a session: it returns nothing and calls no endpoint either, and
    hands one [FEATURE_USED] event, flagged as a success, to the telemetry
    service. *)
Theorem noop_trigger_is_silent_in_service E document position context w :
  noop_trigger E document position →
  CompletionService.getCompletion E document position context w
  = (Ret None, set_ticks (S (ticks w)) w) ∧
  ∃ w' now,
    getCodeCompletion E document position context w = (Ret None, w') ∧
    network w' = network w ∧
    completionCache w' = completionCache w ∧
    errors w' = errors w ∧
    telemetry w'
    = TelemetryService.trackEvent (host E) now (deliver E)
        (feature_used (clock E (4 + ticks w)) (apiSessionId w)
           (selectedModel w) CODE_COMPLETION true
           (clock E (3 + ticks w) - clock E (1 + ticks w)))
        (telemetry w).
Proof.
  intros Hnoop. split; [by apply getCompletion_noop|].
  unfold getCodeCompletion. unfold bind at 1. rewrite startSession_eq.
  unfold try_catch. unfold bind at 1.
  rewrite getCompletion_noop by done. unfold bind at 1.
  edestruct (endSession_spec E
               (session_name CODE_COMPLETION (clock E (ticks w))
                  (random E (draws w)))
               CODE_COMPLETION true
               (set_ticks (S (ticks (session_started E CODE_COMPLETION w)))
                  (session_started E CODE_COMPLETION w)))
    as (w' & now & Heq & Htel & _ & Hq).
  { simpl. apply lookup_insert_eq. }
  rewrite Heq. exists w', now. split; [reflexivity|].
  destruct Hq as (Hcache & _ & _ & Hnet & Herr).
  split_and!; [by rewrite Hnet | by rewrite Hcache | by rewrite Herr |].
  rewrite Htel. reflexivity.
Qed.

Lemma noop_trigger_is_silent_in_service_witness :
  let E := Samples.sample_env Samples.sample_settings Samples.completing in
  let w := Samples.sample_world in
  CompletionService.getCompletion E Samples.sample_document
    Samples.on_blank_line None w
  = (Ret None, set_ticks 1 w) ∧
  ∃ w', getCodeCompletion E Samples.sample_document Samples.on_blank_line
          None w = (Ret None, w') ∧
        network w' = [] ∧
        TelemetryEvent.type <$> TelemetryService.pendingEvents (telemetry w')
        = [TelemetryEvent.FEATURE_USED].
Proof.
  destruct (noop_trigger_is_silent_in_service
              (Samples.sample_env Samples.sample_settings Samples.completing)
              Samples.sample_document Samples.on_blank_line None
              Samples.sample_world)
    as (Hservice & w' & now & Hagent & Hnet & _ & _ & Htel).
  - right. exists "    ". split_and!; [simpl; lia | reflexivity | reflexivity].
  - split; [exact Hservice|]. exists w'.
    split_and!; [exact Hagent | exact Hnet |].
    rewrite Htel. reflexivity.
Defined.

(** C6 as the design document states it fails for the entry point the
    editor calls: on the blank line of the sample document, telemetry
    enabled, the session envelope leaves an event in the buffer. *)
Lemma noop_trigger_not_silent_through_agent : ¬ silent_on_noop getCodeCompletion.
Proof.
  intros Hsilent.
  destruct (Hsilent
              (Samples.sample_env Samples.sample_settings Samples.completing)
              Samples.sample_document Samples.on_blank_line None
              Samples.sample_world) as (_ & _ & Htel).
  - right. exists "    ". split_and!; [simpl; lia | reflexivity | reflexivity].
  - apply (f_equal (λ t, length (TelemetryService.pendingEvents t))) in Htel.
    vm_compute in Htel. discriminate.
Qed.

End services.

(** ** Part III: further properties of the code *)

Section result_cache_more.
Import ResultCache.

Implicit Types (c : cache) (k key : string) (e : entry).

Lemma cache_set_new k e c : k ∉ c.*1 → cache_set k e c = c ++ [(k, e)].
Proof.
  induction c as [|[k' e'] c IH]; [done|].
  rewrite fmap_cons, not_elem_of_cons. intros [Hne Hnin]. simpl in *.
  rewrite decide_False by done. by rewrite IH.
Qed.

Lemma cache_get_app_new k e c : k ∉ c.*1 → cache_get k (c ++ [(k, e)]) = Some e.
Proof. intros Hnin. rewrite <-cache_set_new by done. apply cache_get_set. Qed.

(** An entry that is no older than any other sorts last. *)
Lemma insert_by_timestamp_snoc x y (l : cache) :
  timestamp x.2 ≤ timestamp y.2 →
  insert_by_timestamp x (l ++ [y]) = insert_by_timestamp x l ++ [y].
Proof.
  intros Hxy. induction l as [|z l IH]; simpl.
  - by rewrite bool_decide_true by lia.
  - case_bool_decide; [done|]. by rewrite IH.
Qed.

Lemma sort_by_timestamp_snoc y (l : cache) :
  Forall (λ p, timestamp p.2 ≤ timestamp y.2) l →
  sort_by_timestamp (l ++ [y]) = sort_by_timestamp l ++ [y].
Proof.
  induction 1 as [|x l Hx _ IH]; [done|].
  change (insert_by_timestamp x (sort_by_timestamp (l ++ [y]))
          = insert_by_timestamp x (sort_by_timestamp l) ++ [y]).
  rewrite IH. by apply insert_by_timestamp_snoc.
Qed.

(** X1. After any sequence of [getFromCache] and [addToCache] calls on the
    empty cache of a new service, the keys of the store are pairwise
    distinct and the store holds at most 100 entries. *)
Theorem cache_run_bounded calls :
  NoDup (cache_run calls).*1 ∧ (length (cache_run calls) ≤ 100)%nat.
Proof. apply cache_inv_run. Qed.

(** The entry just written survives the eviction of its own write, when no
    stored entry is younger. *)
Lemma cache_get_addToCache now key res c :
  cache_inv c →
  Forall (λ p, timestamp p.2 ≤ now) c →
  cache_get key (addToCache now key res c) = Some (Entry res now).
Proof.
  intros [Hnd Hlen] Hold.
  destruct (decide (length (cache_set key (Entry res now) c) ≤ 100)%nat)
    as [Hsmall|Hbig].
  - rewrite addToCache_small by done. apply cache_get_set.
  - assert (key ∉ c.*1) as Hnew.
    { intros Hin. apply Hbig. rewrite cache_set_length.
      by rewrite decide_True. }
    rewrite addToCache_large by lia. rewrite cache_set_new by done.
    unfold keysToDelete. rewrite sort_by_timestamp_snoc by done.
    assert (length (sort_by_timestamp c) = 100%nat) as Hsorted.
    { rewrite sort_by_timestamp_perm.
      rewrite cache_set_length, decide_False in Hbig by done. lia. }
    rewrite take_app_le by lia.
    assert (key ∉ (take 20 (sort_by_timestamp c)).*1) as Hkept.
    { intros ([k' e'] & Hk & Hin)%list_elem_of_fmap. simpl in Hk. subst k'.
      apply Hnew. apply list_elem_of_fmap. exists (key, e'). split; [done|].
      rewrite <-(sort_by_timestamp_perm c).
      by apply (subseteq_take 20). }
    rewrite filter_app, filter_cons_True, filter_nil by done.
    apply cache_get_app_new.
    intros ([k' e'] & Hk & Hin)%list_elem_of_fmap. simpl in Hk. subst k'.
    apply list_elem_of_filter in Hin as [_ Hin]. apply Hnew.
    by apply (list_elem_of_fmap_2 fst) in Hin.
Qed.

(** X2. Insert, then look up. In a store that satisfies the invariant and
    whose entries were all created no later than [now], an entry written at
    [now] is found by every lookup made less than 60000 ms after [now]: the
    eviction that the write may trigger never removes the entry just
    written. *)
Theorem addToCache_then_getFromCache now now' key res c :
  cache_inv c →
  Forall (λ p, timestamp p.2 ≤ now) c →
  now' - now < 60000 →
  getFromCache now' key (addToCache now key res c)
  = (Some res, addToCache now key res c).
Proof.
  intros Hinv Hold Hfresh.
  apply (getFromCache_fresh _ _ (Entry res now)).
  - by apply cache_get_addToCache.
  - simpl. unfold CACHE_TTL_MS. lia.
Qed.

Lemma addToCache_then_getFromCache_witness :
  getFromCache 60999 "new" (addToCache 1000 "new" "x" Samples.full_cache)
  = (Some "x", addToCache 1000 "new" "x" Samples.full_cache).
Proof.
  apply addToCache_then_getFromCache.
  - split; [apply (bool_decide_unpack _); vm_compute; exact I
           | vm_compute; lia].
  - apply (bool_decide_unpack _). vm_compute. exact I.
  - lia.
Defined.

(** X3. Writing under a key that is already stored replaces the value and
    the creation time in place: nothing is evicted, the keys and their
    order stay, and every other key keeps its entry. *)
Theorem addToCache_overwrite now key res c e0 :
  cache_inv c →
  cache_get key c = Some e0 →
  addToCache now key res c = cache_set key (Entry res now) c ∧
  (addToCache now key res c).*1 = c.*1 ∧
  cache_get key (addToCache now key res c) = Some (Entry res now) ∧
  ∀ k', k' ≠ key →
    cache_get k' (addToCache now key res c) = cache_get k' c.
Proof.
  intros [Hnd Hlen] Hget.
  assert (key ∈ c.*1) as Hin.
  { destruct (decide (key ∈ c.*1)) as [|Hnin]; [done|].
    apply cache_get_None in Hnin. congruence. }
  assert (addToCache now key res c = cache_set key (Entry res now) c) as ->.
  { apply addToCache_small. rewrite cache_set_length, decide_True by done.
    done. }
  split_and!; [done| |apply cache_get_set|].
  - by rewrite cache_set_keys, decide_True.
  - intros k' Hne. by apply cache_get_set_ne.
Qed.

Lemma addToCache_overwrite_witness :
  (addToCache 1000 "5" "fresh" Samples.full_cache).*1
  = Samples.full_cache.*1 ∧
  cache_get "5" (addToCache 1000 "5" "fresh" Samples.full_cache)
  = Some (Entry "fresh" 1000).
Proof.
  destruct (addToCache_overwrite 1000 "5" "fresh" Samples.full_cache
              (Entry "r" 5)) as (_ & Hkeys & Hget & _).
  - split; [apply (bool_decide_unpack _); vm_compute; exact I
           | vm_compute; lia].
  - reflexivity.
  - by split.
Defined.

End result_cache_more.

Section completion_more.
Import Runtime AgentService.
Local Open Scope js_scope.

Implicit Types (E : env) (w : world).

(** **** Frame rules *)

Lemma keeps_ret {A B} (f : world → B) (a : A) : keeps f (ret a).
Proof. by intros w. Qed.

Lemma keeps_throw {A B} (f : world → B) e : keeps f (throw (A:=A) e).
Proof. by intros w. Qed.

Lemma keeps_gets {A B} (f : world → B) (g : world → A) : keeps f (gets g).
Proof. by intros w. Qed.

Lemma keeps_bind {A B C} (f : world → C) (m : M A) (k : A → M B) :
  keeps f m → (∀ a, keeps f (k a)) → keeps f (bind m k).
Proof.
  intros Hm Hk w. unfold bind. specialize (Hm w).
  destruct (m w) as [[a|e] w1]; simpl in *; [|done].
  by rewrite Hk.
Qed.

Lemma keeps_try_catch {A C} (f : world → C) (body : M A) handler :
  keeps f body → (∀ e, keeps f (handler e)) → keeps f (try_catch body handler).
Proof.
  intros Hm Hk w. unfold try_catch. specialize (Hm w).
  destruct (body w) as [[a|e] w1]; simpl in *; [done|].
  by rewrite Hk.
Qed.

Lemma keeps_for_each {A B C} (f : world → C) (l : list B) (body : A → B → M A) :
  (∀ a b, keeps f (body a b)) → ∀ a, keeps f (for_each l body a).
Proof.
  intros Hbody. induction l as [|b l IH]; intros a; simpl.
  - apply keeps_ret.
  - apply keeps_bind; [apply Hbody | apply IH].
Qed.

Lemma keeps_lineAt {C} (f : world → C) document i : keeps f (lineAt document i).
Proof.
  unfold lineAt. case_bool_decide; [|apply keeps_throw].
  destruct (_ !! _); [apply keeps_ret | apply keeps_throw].
Qed.

Lemma keeps_modify {C} (f : world → C) (g : world → world) :
  (∀ w, f (g w) = f w) → keeps f (modify g).
Proof. intros Hg w. apply Hg. Qed.

Lemma keeps_date_now {C} E (f : world → C) :
  (∀ n w, f (set_ticks n w) = f w) → keeps f (date_now E).
Proof. intros Hf w. apply Hf. Qed.

Lemma keeps_await_api {C Req Resp} (f : world → C) (record : Req → outbound)
    (api : endpoint Req Resp) request :
  (∀ l w, f (set_network l w) = f w) → keeps f (await_api record api request).
Proof.
  intros Hf. unfold await_api. apply keeps_bind.
  - apply keeps_modify. intros w. apply Hf.
  - intros _. destruct (api request); [apply keeps_ret | apply keeps_throw].
Qed.

Lemma keeps_trackEvent {C} E (f : world → C) event :
  (∀ n w, f (set_ticks n w) = f w) →
  (∀ t w, f (set_telemetry t w) = f w) →
  keeps f (telemetryService_trackEvent E event).
Proof.
  intros Hticks Htel. unfold telemetryService_trackEvent.
  apply keeps_bind; [apply keeps_gets|]. intros tel.
  destruct (negb _); [apply keeps_ret|].
  apply keeps_bind.
  - case_bool_decide; [by apply keeps_date_now | apply keeps_ret].
  - intros now. apply keeps_modify. intros w. apply Htel.
Qed.

(** [getCompletion] touches neither the sessions of [AgentService], nor
    the selected model, nor the session of the client. *)
Lemma keeps_getCompletion {C} E (f : world → C) document position context :
  (∀ n w, f (set_ticks n w) = f w) →
  (∀ t w, f (set_telemetry t w) = f w) →
  (∀ l w, f (set_network l w) = f w) →
  (∀ l w, f (set_errors l w) = f w) →
  (∀ c w, f (set_completionCache c w) = f w) →
  keeps f (CompletionService.getCompletion E document position context).
Proof.
  intros Hticks Htel Hnet Herr Hcache.
  assert (∀ msg, keeps f (logger_error msg)) as Hlog.
  { intros msg. apply keeps_modify. intros w. apply Herr. }
  assert (∀ a b c d e g h i,
            keeps f (CompletionService.trackCompletionEvent E a b c d e g h i))
    as Htrack.
  { intros. unfold CompletionService.trackCompletionEvent.
    apply keeps_bind; [by apply keeps_date_now|]. intros now.
    apply keeps_bind; [apply keeps_gets|]. intros sid.
    by apply keeps_trackEvent. }
  unfold CompletionService.getCompletion.
  apply keeps_try_catch.
  2:{ intros e. apply keeps_bind; [apply Hlog | intros; apply keeps_ret]. }
  apply keeps_bind; [by apply keeps_date_now|]. intros startTime.
  destruct (negb _); [apply keeps_ret|].
  apply keeps_bind; [apply keeps_lineAt|]. intros lineText.
  destruct (negb _); [apply keeps_ret|].
  apply keeps_bind.
  { unfold CompletionService.getFromCache.
    apply keeps_bind; [apply keeps_gets|]. intros c.
    destruct (ResultCache.cache_get _ _); [|apply keeps_ret].
    apply keeps_bind; [by apply keeps_date_now|]. intros now.
    apply keeps_bind; [|intros; apply keeps_ret].
    apply keeps_modify. intros w. apply Hcache. }
  intros cached. destruct (JS.truthy_opt cached).
  { apply keeps_bind; [by apply keeps_date_now|]. intros t.
    apply keeps_bind; [apply Htrack | intros; apply keeps_ret]. }
  apply keeps_bind.
  { unfold CompletionService.buildCompletionRequest. cbv zeta.
    apply keeps_bind.
    { apply keeps_for_each. intros a b.
      apply keeps_bind; [apply keeps_lineAt | intros; apply keeps_ret]. }
    intros promptText. apply keeps_bind; [|intros; apply keeps_ret].
    apply keeps_for_each. intros a b.
    apply keeps_bind; [apply keeps_lineAt|]. intros l.
    case_bool_decide; apply keeps_ret. }
  intros request. apply keeps_bind; [by apply keeps_await_api|].
  intros [value|error].
  - apply keeps_bind.
    { unfold CompletionService.addToCache.
      apply keeps_bind; [by apply keeps_date_now|]. intros now.
      apply keeps_modify. intros w. apply Hcache. }
    intros _. apply keeps_bind; [by apply keeps_date_now|]. intros t.
    apply keeps_bind; [apply Htrack | intros; apply keeps_ret].
  - apply keeps_bind; [apply Hlog | intros; apply keeps_ret].
Qed.

Lemma getCompletion_never_throws E document position context :
  returns (CompletionService.getCompletion E document position context).
Proof.
  intros w. unfold CompletionService.getCompletion, try_catch.
  match goal with |- context [let (o, w') := ?body w in _] =>
    destruct (body w) as [[a|e] w1] end.
  - by exists a.
  - by exists None.
Qed.

(** X4. [getCompletion] never throws: whatever the document, the cursor,
    the cache and the request client do, it returns a suggestion or
    nothing. *)
Theorem getCompletion_returns E document position context :
  returns (CompletionService.getCompletion E document position context).
Proof. apply getCompletion_never_throws. Qed.

Lemma getCodeCompletion_run
    E document position context w :
  let sid := session_name CODE_COMPLETION (clock E (ticks w))
               (random E (draws w)) in
  ∃ r w1 w' now,
    CompletionService.getCompletion E document position context
      (session_started E CODE_COMPLETION w) = (Ret r, w1) ∧
    getCodeCompletion E document position context w = (Ret r, w') ∧
    telemetry w'
    = TelemetryService.trackEvent (host E) now (deliver E)
        (feature_used (clock E (S (ticks w1))) (apiSessionId w)
           (selectedModel w) CODE_COMPLETION true
           (clock E (ticks w1) - clock E (S (ticks w))))
        (telemetry w1) ∧
    activeSessions w' = delete sid (activeSessions w) ∧
    network w' = network w1 ∧
    completionCache w' = completionCache w1.
Proof.
  intros sid.
  set (ws := session_started E CODE_COMPLETION w).
  destruct (getCompletion_never_throws E document position context ws) as [r Hr].
  pose proof (keeps_getCompletion E activeSessions document position context)
    as Hsessions.
  pose proof (keeps_getCompletion E apiSessionId document position context)
    as Hsid.
  pose proof (keeps_getCompletion E selectedModel document position context)
    as Hmodel.
  specialize (Hsessions ltac:(done) ltac:(done) ltac:(done) ltac:(done)
                ltac:(done) ws).
  specialize (Hsid ltac:(done) ltac:(done) ltac:(done) ltac:(done)
                ltac:(done) ws).
  specialize (Hmodel ltac:(done) ltac:(done) ltac:(done) ltac:(done)
                ltac:(done) ws).
  destruct (CompletionService.getCompletion E document position context ws)
    as [o w1] eqn:Hrun.
  simpl in Hr, Hsessions, Hsid, Hmodel. subst o.
  destruct (endSession_spec E sid CODE_COMPLETION true w1
              (Session (clock E (S (ticks w))) CODE_COMPLETION))
    as (w' & now & Hend & Htel & Hact & Hq).
  { rewrite Hsessions. subst ws sid. simpl. apply lookup_insert_eq. }
  exists r, w1, w', now. split; [done|].
  destruct Hq as (Hcache & _ & _ & Hnet & _).
  split_and!; try done.
  - unfold getCodeCompletion. unfold bind at 1. rewrite startSession_eq.
    unfold try_catch. fold ws. unfold bind at 1. rewrite Hrun.
    unfold bind at 1. fold sid. rewrite Hend. reflexivity.
  - rewrite Htel, Hsid, Hmodel. reflexivity.
  - rewrite Hact, Hsessions. subst ws sid. simpl. apply delete_insert_eq.
Qed.

(** X5. [getCodeCompletion] never throws, and its session always ends as a
    success: whatever [getCompletion] did (a suggestion, nothing, a failed
    or throwing network call), the result is handed on, the telemetry
    service takes one [FEATURE_USED] event with [success = true] after the
    events of [getCompletion], and the session is removed again. The
    [catch] branch, which would record a failure, is never taken. *)
Theorem getCodeCompletion_always_reports_success
    E document position context w :
  let sid := session_name CODE_COMPLETION (clock E (ticks w))
               (random E (draws w)) in
  ∃ r w1 w' now,
    CompletionService.getCompletion E document position context
      (session_started E CODE_COMPLETION w) = (Ret r, w1) ∧
    getCodeCompletion E document position context w = (Ret r, w') ∧
    telemetry w'
    = TelemetryService.trackEvent (host E) now (deliver E)
        (feature_used (clock E (S (ticks w1))) (apiSessionId w)
           (selectedModel w) CODE_COMPLETION true
           (clock E (ticks w1) - clock E (S (ticks w))))
        (telemetry w1) ∧
    activeSessions w' = delete sid (activeSessions w) ∧
    network w' = network w1 ∧
    completionCache w' = completionCache w1.
Proof. apply getCodeCompletion_run. Qed.

(** **** The cache key *)

Lemma string_length_app (a b : string) :
  String.length (a +:+ b) = (String.length a + String.length b)%nat.
Proof.
  induction a as [|x a IH]; [done|].
  change (S (String.length (a +:+ b))
          = S (String.length a + String.length b)). by f_equal.
Qed.

Lemma string_substring_app (n : nat) : ∀ a b : string,
  (n ≤ String.length a)%nat →
  String.substring 0 n (a +:+ b) = String.substring 0 n a.
Proof.
  induction n as [|n IH]; intros a b Hn.
  - by destruct a, b.
  - destruct a as [|x a]; [simpl in Hn; lia|].
    change (String x (String.substring 0 n (a +:+ b))
            = String x (String.substring 0 n a)).
    f_equal. apply IH. simpl in Hn. lia.
Qed.

(** X6. The cache key looks at the first 50 characters of the context
    only: two contexts that agree on a prefix of 50 or more characters give
    the same key for the same language and line prefix, whatever follows. *)
Theorem getCacheKey_context_beyond_50 language prefix (context rest : string) :
  (50 ≤ String.length context)%nat →
  CompletionService.getCacheKey language prefix (context +:+ rest)
  = CompletionService.getCacheKey language prefix context.
Proof.
  intros Hlen. unfold CompletionService.getCacheKey. do 4 f_equal.
  assert (∀ s : string, (50 ≤ String.length s)%nat →
            JS.substring s 0 50 = String.substring 0 50 s) as Hsub.
  { intros s Hs. unfold JS.substring, JS.clamp.
    replace (Z.to_nat _) with 0%nat by lia.
    replace (Z.to_nat _) with 50%nat by lia. done. }
  rewrite !Hsub by (rewrite ?string_length_app; lia).
  by apply string_substring_app.
Qed.

Lemma getCacheKey_context_beyond_50_witness :
  CompletionService.getCacheKey "typescript" "foo."
    ("import { a } from './a'; import { b } from './b'; " +:+ "const x = 1;")
  = CompletionService.getCacheKey "typescript" "foo."
      "import { a } from './a'; import { b } from './b'; ".
Proof.
  apply getCacheKey_context_beyond_50. vm_compute. lia.
Defined.

(** **** The paths of [getCompletion] *)

Lemma trackCompletionEvent_spec E language promptLength completionLength
    position duration success fromCache tokensUsed w :
  ∃ w' now,
    CompletionService.trackCompletionEvent E language promptLength
      completionLength position duration success fromCache tokensUsed w
    = (Ret (), w') ∧
    telemetry w'
    = TelemetryService.trackEvent (host E) now (deliver E)
        (completion_event E (clock E (ticks w)) (apiSessionId w) language
           promptLength completionLength position duration success fromCache
           tokensUsed)
        (telemetry w) ∧
    quiet w w'.
Proof.
  unfold CompletionService.trackCompletionEvent.
  unfold bind at 1, date_now at 1. unfold bind at 1, gets at 1.
  cbn [apiSessionId set_ticks].
  match goal with
  | |- context [telemetryService_trackEvent E ?ev ?w1] =>
      destruct (telemetryService_trackEvent_spec E ev w1)
        as (w' & now & Heq & Htel & _ & Hq)
  end.
  exists w', now. split; [exact Heq|]. split; [exact Htel|].
  destruct Hq as (?&?&?&?&?). by repeat split.
Qed.

Lemma getFromCache_hit E key e w :
  ResultCache.cache_get key (completionCache w) = Some e →
  clock E (ticks w) - ResultCache.timestamp e < 60000 →
  CompletionService.getFromCache E key w
  = (Ret (Some (ResultCache.result e)),
     set_completionCache (completionCache w) (set_ticks (S (ticks w)) w)).
Proof.
  intros Hget Hfresh. unfold CompletionService.getFromCache.
  unfold bind at 1, gets at 1. rewrite Hget.
  unfold bind at 1, date_now at 1. cbn [completionCache set_ticks].
  rewrite (getFromCache_fresh _ _ e) by done. reflexivity.
Qed.

(** The first steps of [getCompletion] on a trigger that passes the two
    gates: the clock is read and the cache is consulted under the key of
    the trigger. *)
Ltac enter_getCompletion Hauto Hline Hl Hprefix :=
  unfold CompletionService.getCompletion, try_catch;
  unfold bind at 1, date_now at 1; rewrite Hauto; cbn [negb];
  unfold bind at 1; rewrite (lineAt_Some _ _ _ _ Hline Hl);
  unfold JS.truthy at 1; rewrite bool_decide_false by exact Hprefix;
  cbn [negb]; unfold bind at 1.

Lemma getCompletion_cache_hit_run E document position context w lineText e :
  autoComplete (config E) = true →
  0 ≤ Position.line position →
  TextDocument.lines document !! Z.to_nat (Position.line position)
  = Some lineText →
  let linePrefix := JS.substring lineText 0 (Position.character position) in
  JS.trim linePrefix ≠ "" →
  ResultCache.cache_get (trigger_key document linePrefix context)
    (completionCache w) = Some e →
  clock E (S (ticks w)) - ResultCache.timestamp e < 60000 →
  ResultCache.result e ≠ "" →
  ∃ w' now,
    CompletionService.getCompletion E document position context w
    = (Ret (Some (ResultCache.result e)), w') ∧
    network w' = network w ∧
    completionCache w' = completionCache w ∧
    errors w' = errors w ∧
    telemetry w'
    = TelemetryService.trackEvent (host E) now (deliver E)
        (completion_event E (clock E (3 + ticks w)) (apiSessionId w)
           (TextDocument.languageId document)
           (Z.of_nat (String.length linePrefix))
           (Z.of_nat (String.length (ResultCache.result e)))
           position (clock E (2 + ticks w) - clock E (ticks w))
           true true 0)
        (telemetry w).
Proof.
  intros Hauto Hline Hl linePrefix Hprefix Hget Hfresh Hresult.
  enter_getCompletion Hauto Hline Hl Hprefix. fold linePrefix.
  fold (trigger_key document linePrefix context).
  rewrite (getFromCache_hit E _ e) by done.
  cbn [JS.truthy_opt]. unfold JS.truthy at 1.
  rewrite bool_decide_false by done. cbn [negb].
  unfold bind at 1, date_now at 1. unfold bind at 1.
  match goal with
  | |- context [CompletionService.trackCompletionEvent E ?a ?b ?c ?d ?g ?h ?i ?j ?w1] =>
      destruct (trackCompletionEvent_spec E a b c d g h i j w1)
        as (w' & now & Heq & Htel & Hq)
  end.
  rewrite Heq. exists w', now. split; [reflexivity|].
  destruct Hq as (Hcache & _ & _ & Hnet & Herr).
  split_and!; [by rewrite Hnet | by rewrite Hcache | by rewrite Herr |].
  rewrite Htel. reflexivity.
Qed.

(** X7. A cache hit. The trigger passes the gates, and the cache holds,
    under the key of the trigger, a non-empty suggestion younger than
    60000 ms: [getCompletion] returns that suggestion, issues no network
    call, leaves the cache as it is, and the telemetry service takes one
    [CODE_COMPLETED] event with [fromCache = true] and no tokens used. *)
Theorem getCompletion_cache_hit E document position context w lineText e :
  autoComplete (config E) = true →
  0 ≤ Position.line position →
  TextDocument.lines document !! Z.to_nat (Position.line position)
  = Some lineText →
  let linePrefix := JS.substring lineText 0 (Position.character position) in
  JS.trim linePrefix ≠ "" →
  ResultCache.cache_get (trigger_key document linePrefix context)
    (completionCache w) = Some e →
  clock E (S (ticks w)) - ResultCache.timestamp e < 60000 →
  ResultCache.result e ≠ "" →
  ∃ w' now,
    CompletionService.getCompletion E document position context w
    = (Ret (Some (ResultCache.result e)), w') ∧
    network w' = network w ∧
    completionCache w' = completionCache w ∧
    errors w' = errors w ∧
    telemetry w'
    = TelemetryService.trackEvent (host E) now (deliver E)
        (completion_event E (clock E (3 + ticks w)) (apiSessionId w)
           (TextDocument.languageId document)
           (Z.of_nat (String.length linePrefix))
           (Z.of_nat (String.length (ResultCache.result e)))
           position (clock E (2 + ticks w) - clock E (ticks w))
           true true 0)
        (telemetry w).
Proof. apply getCompletion_cache_hit_run. Qed.

Lemma getCompletion_cache_hit_witness :
  ∃ w',
    CompletionService.getCompletion MoreSamples.completing_env
      Samples.sample_document Samples.after_console None
      MoreSamples.warm_world = (Ret (Some "log(a)"), w') ∧
    network w' = network MoreSamples.warm_world.
Proof.
  destruct (getCompletion_cache_hit MoreSamples.completing_env
              Samples.sample_document Samples.after_console None
              MoreSamples.warm_world "console.log(a);"
              (ResultCache.Entry "log(a)" 1001))
    as (w' & now & Hrun & Hnet & _); try reflexivity.
  - vm_compute. discriminate.
  - vm_compute. discriminate.
  - vm_compute. discriminate.
  - exists w'. by split.
Defined.

Lemma getCompletion_success_run E document position context w lineText value :
  autoComplete (config E) = true →
  0 ≤ Position.line position →
  TextDocument.lines document !! Z.to_nat (Position.line position)
  = Some lineText →
  let linePrefix := JS.substring lineText 0 (Position.character position) in
  let request :=
    completion_request E document position linePrefix context in
  let completionText := CompletionResponse.text value in
  JS.trim linePrefix ≠ "" →
  ResultCache.cache_get (trigger_key document linePrefix context)
    (completionCache w) = None →
  api_getCompletion E request = Ret (Success value) →
  ∃ w' now,
    CompletionService.getCompletion E document position context w
    = (Ret (Some completionText), w') ∧
    network w' = network w ++ [PostCompletions request] ∧
    completionCache w'
    = ResultCache.addToCache (clock E (S (ticks w)))
        (trigger_key document linePrefix context) completionText
        (completionCache w) ∧
    errors w' = errors w ∧
    telemetry w'
    = TelemetryService.trackEvent (host E) now (deliver E)
        (completion_event E (clock E (3 + ticks w)) (apiSessionId w)
           (TextDocument.languageId document)
           (Z.of_nat (String.length linePrefix))
           (Z.of_nat (String.length completionText))
           position (clock E (2 + ticks w) - clock E (ticks w))
           true false (CompletionResponse.tokens value))
        (telemetry w).
Proof.
  intros Hauto Hline Hl linePrefix request completionText Hprefix Hmiss Hapi.
  assert (Hcount : Position.line position < TextDocument.lineCount document).
  { apply lookup_lt_Some in Hl. unfold TextDocument.lineCount. lia. }
  enter_getCompletion Hauto Hline Hl Hprefix. fold linePrefix.
  fold (trigger_key document linePrefix context).
  unfold CompletionService.getFromCache at 1.
  unfold bind at 1, gets at 1. cbn [completionCache set_ticks].
  rewrite Hmiss. unfold ret at 1. cbn [JS.truthy_opt].
  unfold bind at 1. rewrite buildCompletionRequest_prompt by (split; done).
  fold (completion_request E document position linePrefix context).
  fold request. unfold bind at 1. rewrite await_api_eq, Hapi.
  fold completionText.
  unfold bind at 1, CompletionService.addToCache at 1.
  unfold bind at 1, date_now at 1, modify at 1.
  unfold bind at 1, date_now at 1. unfold bind at 1.
  match goal with
  | |- context [CompletionService.trackCompletionEvent E ?a ?b ?c ?d ?g ?h ?i ?j ?w1] =>
      destruct (trackCompletionEvent_spec E a b c d g h i j w1)
        as (w' & now & Heq & Htel & Hq)
  end.
  rewrite Heq. exists w', now. split; [reflexivity|].
  destruct Hq as (Hcache & _ & _ & Hnet & Herr).
  split_and!; [by rewrite Hnet | by rewrite Hcache | by rewrite Herr |].
  rewrite Htel. reflexivity.
Qed.

(** X8. A cache miss answered by the client. The trigger passes the gates,
    the cache holds nothing under its key, and the client answers the
    request with a completion: [getCompletion] returns the text, has issued
    that one network call, has written the text into the cache at the
    instant of the next clock reading, and the telemetry service takes one
    [CODE_COMPLETED] event with [fromCache = false] and the tokens of the
    response. *)
Theorem getCompletion_success E document position context w lineText value :
  autoComplete (config E) = true →
  0 ≤ Position.line position →
  TextDocument.lines document !! Z.to_nat (Position.line position)
  = Some lineText →
  let linePrefix := JS.substring lineText 0 (Position.character position) in
  let request :=
    completion_request E document position linePrefix context in
  let completionText := CompletionResponse.text value in
  JS.trim linePrefix ≠ "" →
  ResultCache.cache_get (trigger_key document linePrefix context)
    (completionCache w) = None →
  api_getCompletion E request = Ret (Success value) →
  ∃ w' now,
    CompletionService.getCompletion E document position context w
    = (Ret (Some completionText), w') ∧
    network w' = network w ++ [PostCompletions request] ∧
    completionCache w'
    = ResultCache.addToCache (clock E (S (ticks w)))
        (trigger_key document linePrefix context) completionText
        (completionCache w) ∧
    errors w' = errors w ∧
    telemetry w'
    = TelemetryService.trackEvent (host E) now (deliver E)
        (completion_event E (clock E (3 + ticks w)) (apiSessionId w)
           (TextDocument.languageId document)
           (Z.of_nat (String.length linePrefix))
           (Z.of_nat (String.length completionText))
           position (clock E (2 + ticks w) - clock E (ticks w))
           true false (CompletionResponse.tokens value))
        (telemetry w).
Proof. apply getCompletion_success_run. Qed.

Lemma getCompletion_success_witness :
  ∃ w',
    CompletionService.getCompletion MoreSamples.completing_env
      Samples.sample_document Samples.after_console None
      Samples.sample_world = (Ret (Some "log(a)"), w') ∧
    length (network w') = 1%nat ∧
    ResultCache.cache_get "javascript:console.:" (completionCache w')
    = Some (ResultCache.Entry "log(a)" 1001).
Proof.
  destruct (getCompletion_success MoreSamples.completing_env
              Samples.sample_document Samples.after_console None
              Samples.sample_world "console.log(a);"
              (CompletionResponse.mk "log(a)" 3 "standard" "stop"))
    as (w' & now & Hrun & Hnet & Hcache & _); try reflexivity.
  - vm_compute. discriminate.
  - vm_compute. discriminate.
  - exists w'. split_and!; [exact Hrun | by rewrite Hnet |].
    rewrite Hcache. reflexivity.
Defined.



(** X10. An empty completion is stored but never served. If the cache holds
    the empty string under the key of a trigger that passes the gates,
    [getCompletion] treats the lookup as a miss, whatever the age of the
    entry, and issues a network call for the trigger. *)
Theorem empty_completion_is_never_served
    E document position context w lineText e :
  autoComplete (config E) = true →
  0 ≤ Position.line position →
  TextDocument.lines document !! Z.to_nat (Position.line position)
  = Some lineText →
  let linePrefix := JS.substring lineText 0 (Position.character position) in
  let request :=
    completion_request E document position linePrefix context in
  JS.trim linePrefix ≠ "" →
  ResultCache.cache_get (trigger_key document linePrefix context)
    (completionCache w) = Some e →
  ResultCache.result e = "" →
  ∃ r w',
    CompletionService.getCompletion E document position context w
    = (Ret r, w') ∧
    network w' = network w ++ [PostCompletions request].
Proof.
  intros Hauto Hline Hl linePrefix request Hprefix Hget Hempty.
  assert (Hcount : Position.line position < TextDocument.lineCount document).
  { apply lookup_lt_Some in Hl. unfold TextDocument.lineCount. lia. }
  enter_getCompletion Hauto Hline Hl Hprefix. fold linePrefix.
  fold (trigger_key document linePrefix context).
  unfold CompletionService.getFromCache at 1.
  unfold bind at 1, gets at 1. cbn [completionCache set_ticks].
  rewrite Hget. unfold bind at 1, date_now at 1.
  unfold bind at 1, modify at 1. unfold ret at 1. cbn [ticks set_ticks].
  assert (JS.truthy_opt
            (ResultCache.getFromCache (clock E (S (ticks w)))
               (trigger_key document linePrefix context)
               (completionCache w)).1 = false) as ->.
  { unfold ResultCache.getFromCache. rewrite Hget.
    case_bool_decide; [|done]. simpl. by rewrite Hempty. }
  unfold bind at 1. rewrite buildCompletionRequest_prompt by (split; done).
  fold (completion_request E document position linePrefix context).
  fold request. unfold bind at 1. rewrite await_api_eq.
  destruct (api_getCompletion E request) as [[value|err]|ex].
  - unfold bind at 1, CompletionService.addToCache at 1.
    unfold bind at 1, date_now at 1, modify at 1.
    unfold bind at 1, date_now at 1. unfold bind at 1.
    match goal with
    | |- context [CompletionService.trackCompletionEvent E ?a ?b ?c ?d ?g ?h ?i ?j ?w1] =>
        destruct (trackCompletionEvent_spec E a b c d g h i j w1)
          as (w' & now & Heq & _ & Hq)
    end.
    rewrite Heq. eexists _, w'. split; [reflexivity|].
    destruct Hq as (_ & _ & _ & Hnet & _). by rewrite Hnet.
  - eexists _, _. split; reflexivity.
  - eexists _, _. split; reflexivity.
Qed.

Lemma empty_completion_is_never_served_witness :
  ∃ r w',
    CompletionService.getCompletion MoreSamples.completing_env
      Samples.sample_document Samples.after_console None
      (set_completionCache
         [("javascript:console.:", ResultCache.Entry "" 1000)]
         Samples.sample_world) = (Ret r, w') ∧
    length (network w') = 1%nat.
Proof.
  destruct (empty_completion_is_never_served MoreSamples.completing_env
              Samples.sample_document Samples.after_console None
              (set_completionCache
                 [("javascript:console.:", ResultCache.Entry "" 1000)]
                 Samples.sample_world)
              "console.log(a);" (ResultCache.Entry "" 1000))
    as (r & w' & Hrun & Hnet); try reflexivity.
  - vm_compute. discriminate.
  - vm_compute. discriminate.
  - exists r, w'. split; [exact Hrun | by rewrite Hnet].
Defined.

Lemma lineAt_outside document i w :
  ¬ (0 ≤ i < TextDocument.lineCount document) →
  lineAt document i w = (Throw (Error.mk "Illegal value for `line`"), w).
Proof.
  intros Hout. unfold lineAt. case_bool_decide; [|done].
  rewrite lookup_ge_None_2; [done|].
  unfold TextDocument.lineCount in Hout. lia.
Qed.

(** X11. A cursor outside the document. With the feature enabled and a
    cursor line that the document does not have, the line access throws;
    [getCompletion] catches the error, logs it and returns nothing, without
    a network call, a cache access or a telemetry event. *)
Theorem getCompletion_cursor_outside E document position context w :
  autoComplete (config E) = true →
  ¬ (0 ≤ Position.line position < TextDocument.lineCount document) →
  CompletionService.getCompletion E document position context w
  = (Ret None,
     set_errors (errors w ++ ["Unexpected error in code completion"])
       (set_ticks (S (ticks w)) w)).
Proof.
  intros Hauto Hout. unfold CompletionService.getCompletion, try_catch.
  unfold bind at 1, date_now at 1. rewrite Hauto. cbn [negb].
  unfold bind at 1. rewrite lineAt_outside by done. reflexivity.
Qed.

Lemma getCompletion_cursor_outside_witness :
  CompletionService.getCompletion MoreSamples.completing_env
    Samples.sample_document (Position.mk 4 0) None Samples.sample_world
  = (Ret None,
     set_errors ["Unexpected error in code completion"]
       (set_ticks 1 Samples.sample_world)).
Proof.
  apply (getCompletion_cursor_outside MoreSamples.completing_env
           Samples.sample_document (Position.mk 4 0) None
           Samples.sample_world); [reflexivity|].
  vm_compute. intros [_ Hlt]. discriminate Hlt.
Defined.

End completion_more.

Section telemetry_more.
Import TelemetryService TelemetryHelpers.

Implicit Types (st : TelemetryService.t) (event : TelemetryEvent.t).
Implicit Types (h : host) (deliver : sink).

(** **** Bounds *)

Lemma flush_buffer_inv deliver st : buffer_inv st → buffer_inv (flush deliver st).
Proof.
  intros [Hp Hf]. unfold flush. destruct (negb _) eqn:Hen; [done|]. simpl.
  case_bool_decide as Hlen; [done|].
  destruct (deliver _); split; simpl; try lia; [|done].
  apply Forall_app. split; [done|]. constructor; [lia | constructor].
Qed.

Lemma trackEvent_buffer_inv h now deliver event st :
  buffer_inv st → buffer_inv (trackEvent h now deliver event st).
Proof.
  intros [Hp Hf]. unfold trackEvent. destruct (negb _) eqn:Hen; [done|].
  apply negb_false_iff in Hen. simpl. rewrite length_app. simpl.
  case_bool_decide as Hlen; [|split; [simpl; rewrite length_app; simpl|]];
    [|unfold EVENTS_BATCH_SIZE in Hlen; lia | done].
  unfold flush. simpl. rewrite Hen. simpl.
  rewrite bool_decide_false by (rewrite length_app; simpl; lia).
  destruct (deliver _); split; simpl; try lia; [|done].
  apply Forall_app. split; [done|].
  constructor; [rewrite length_app; simpl; lia | constructor].
Qed.

Lemma step_buffer_inv h st c : buffer_inv st → buffer_inv (step h st c).
Proof.
  destruct c; simpl; [apply trackEvent_buffer_inv | apply flush_buffer_inv
                     | done | done | done].
Qed.

Lemma client_step_buffer_inv h st c :
  buffer_inv st → buffer_inv (client_step h st c).
Proof.
  intros Hinv. destruct c as [c| | | |]; simpl.
  - by apply step_buffer_inv.
  - unfold trackMetric. destruct (negb _); [done|].
    by apply trackEvent_buffer_inv.
  - by apply trackEvent_buffer_inv.
  - by apply flush_buffer_inv, trackEvent_buffer_inv.
  - by apply flush_buffer_inv, trackEvent_buffer_inv.
Qed.

(** X12. The batcher is bounded. After any sequence of calls on a new
    service ([trackEvent], [flush] and the timer, [enable], [disable],
    configuration changes, [trackMetric], the activation and deactivation
    helpers, [deactivate] of the extension), whatever the delivery does,
    the pending buffer holds fewer than 20 events and every batch a flush
    took holds between 1 and 20 events. *)
Theorem telemetry_buffer_bounded h uuid1 uuid2 enabled calls :
  let st := client_run h (constructor uuid1 uuid2 enabled) calls in
  (length (pendingEvents st) < 20)%nat ∧
  Forall (λ batch, (1 ≤ length batch ≤ 20)%nat) (flushed st).
Proof.
  cbv zeta. change (buffer_inv (client_run h (constructor uuid1 uuid2 enabled) calls)).
  unfold client_run.
  assert (buffer_inv (constructor uuid1 uuid2 enabled)) as Hinit.
  { split; simpl; [lia | constructor]. }
  revert Hinit. generalize (constructor uuid1 uuid2 enabled).
  induction calls as [|c calls IH]; intros st Hinv; [done|].
  simpl. apply IH. by apply client_step_buffer_inv.
Qed.

(** **** Stamps *)

Lemma enrich_stamped h now st event :
  stamped h (sessionId st) (extensionVersion st) (enrich h now st event).
Proof.
  split; [done|]. eexists. split; [reflexivity|].
  split_and!.
  - rewrite lookup_insert_ne by done. rewrite lookup_insert_ne by done.
    apply lookup_insert_eq.
  - rewrite lookup_insert_ne by done. apply lookup_insert_eq.
  - apply lookup_insert_eq.
Qed.

Lemma flush_stamped_inv h sid version deliver st :
  stamped_inv h sid version st → stamped_inv h sid version (flush deliver st).
Proof.
  intros (Hs & Hv & Hp & Hf). unfold flush. destruct (_ || _); [done|].
  destruct (deliver _); split_and!; simpl; try done.
  apply Forall_app. split; [done|]. by constructor.
Qed.

Lemma trackEvent_stamped_inv h sid version now deliver event st :
  stamped_inv h sid version st →
  stamped_inv h sid version (trackEvent h now deliver event st).
Proof.
  intros (Hs & Hv & Hp & Hf). unfold trackEvent. destruct (negb _); [done|].
  assert (stamped_inv h sid version
            (set_pendingEvents (pendingEvents st ++ [enrich h now st event])
               st)) as Hinv1.
  { split_and!; simpl; try done. apply Forall_app. split; [done|].
    constructor; [|constructor]. rewrite <-Hs, <-Hv. apply enrich_stamped. }
  case_bool_decide; [by apply flush_stamped_inv | done].
Qed.

Lemma client_step_stamped_inv h sid version st c :
  stamped_inv h sid version st → stamped_inv h sid version (client_step h st c).
Proof.
  intros Hinv.
  destruct c as [[now deliver event|deliver| | |b]| | | |]; simpl.
  - by apply trackEvent_stamped_inv.
  - by apply flush_stamped_inv.
  - done.
  - done.
  - done.
  - unfold trackMetric. destruct (negb _); [done|].
    by apply trackEvent_stamped_inv.
  - by apply trackEvent_stamped_inv.
  - by apply flush_stamped_inv, trackEvent_stamped_inv.
  - by apply flush_stamped_inv, trackEvent_stamped_inv.
Qed.

(** X13. Every event is stamped by the service. After any sequence of
    client calls on a new service, every event in the pending buffer and in
    every batch a flush took carries the session identifier of the service
    and the properties [extensionVersion], [vscodeVersion] and [os] of the
    host, whatever session identifier and whatever values under these
    three keys the caller had put on the event. *)
Theorem telemetry_events_stamped h uuid1 uuid2 enabled calls :
  let st := client_run h (constructor uuid1 uuid2 enabled) calls in
  Forall (stamped h uuid1 "0.1.0") (pendingEvents st) ∧
  Forall (Forall (stamped h uuid1 "0.1.0")) (flushed st).
Proof.
  cbv zeta.
  assert (∀ st, stamped_inv h uuid1 "0.1.0" st →
            stamped_inv h uuid1 "0.1.0" (client_run h st calls)) as Hrun.
  { unfold client_run. induction calls as [|c calls IH]; intros st Hinv.
    - done.
    - simpl. by apply IH, client_step_stamped_inv. }
  destruct (Hrun (constructor uuid1 uuid2 enabled)) as (_ & _ & Hp & Hf).
  { split_and!; simpl; try done; constructor. }
  done.
Qed.

(** A caller cannot overwrite the stamp: the event below claims another
    session and another version. *)
Example trackEvent_overrides_spoofed_properties :
  let spoofed :=
    TelemetryEvent.mk TelemetryEvent.COMMAND_EXECUTED 5 "someone-else" None
      (Some {[ "extensionVersion" := TelemetryEvent.PString "9.9.9";
               "command" := TelemetryEvent.PString "m31.generateCode" ]})
      None in
  (λ e, (TelemetryEvent.sessionId e,
         default ∅ (TelemetryEvent.properties e) !! "extensionVersion",
         default ∅ (TelemetryEvent.properties e) !! "command"))
    <$> pendingEvents (trackEvent Samples.sample_host 5 Samples.always_delivered
                         spoofed Samples.fresh_service)
  = [("session-1", Some (TelemetryEvent.PString "0.1.0"),
      Some (TelemetryEvent.PString "m31.generateCode"))].
Proof. vm_compute. reflexivity. Qed.

(** **** Order and loss *)

Lemma flush_all_events deliver st :
  (∀ batch, deliver batch = Delivered) →
  all_events (flush deliver st) = all_events st.
Proof.
  intros Hd. unfold flush, all_events. destruct (_ || _); [done|].
  rewrite Hd. simpl. rewrite concat_app. simpl.
  by rewrite !app_nil_r.
Qed.

Lemma step_all_events h st c :
  delivers c →
  all_events (step h st c) = all_events st ++ accepted h st [c].
Proof.
  intros Hd. destruct c as [now deliver event|deliver| | |b]; simpl in *.
  - unfold trackEvent. destruct (isEnabled st) eqn:Hen; simpl;
      [|by rewrite app_nil_r].
    case_bool_decide.
    + rewrite flush_all_events by done. unfold all_events. simpl.
      by rewrite app_assoc.
    + unfold all_events. simpl. by rewrite app_assoc.
  - rewrite flush_all_events by done. by rewrite app_nil_r.
  - by rewrite app_nil_r.
  - by rewrite app_nil_r.
  - by rewrite app_nil_r.
Qed.

(** X14. No loss and no reordering while the delivery succeeds. Over any
    sequence of calls whose delivery steps succeed, the events the service
    has handed over, batch after batch, followed by the events still
    pending, are the events it held before followed by the events it was
    given while enabled, each stamped once, in the order of the calls.
    Events tracked while the service is disabled are dropped. *)
Theorem telemetry_keeps_order h st calls :
  Forall delivers calls →
  all_events (run h st calls) = all_events st ++ accepted h st calls.
Proof.
  unfold run. intros Hcalls. revert st.
  induction Hcalls as [|c calls Hc _ IH]; intros st; simpl.
  - by rewrite app_nil_r.
  - rewrite IH, step_all_events by done. simpl.
    by rewrite app_nil_r, app_assoc.
Qed.

Lemma telemetry_keeps_order_witness :
  TelemetryEvent.timestamp <$>
    all_events (run Samples.sample_host (Samples.service_with 19)
                  [TrackEvent 20 Samples.always_delivered
                     (Samples.sample_event 20);
                   Disable;
                   TrackEvent 21 Samples.always_delivered
                     (Samples.sample_event 21);
                   Enable;
                   TrackEvent 22 Samples.always_delivered
                     (Samples.sample_event 22)])
  = (Z.of_nat <$> seq 1 20) ++ [22].
Proof.
  rewrite (telemetry_keeps_order Samples.sample_host
             (Samples.service_with 19)).
  - vm_compute. reflexivity.
  - repeat constructor.
Defined.

(** **** Shutdown and switching *)

(** X15. Shutdown. When telemetry is enabled and the delivery succeeds,
    [trackExtensionDeactivation] leaves the buffer empty: everything that
    was pending has been handed over, with the deactivation event as the
    last event of the last batch. When telemetry is disabled, the call
    changes nothing: what was buffered before the switch-off is not
    delivered at shutdown. *)
Theorem trackExtensionDeactivation_flushes h now now' deliver st :
  (∀ batch, deliver batch = Delivered) →
  (length (pendingEvents st) < 20)%nat →
  let st' := trackExtensionDeactivation h now now' deliver st in
  let event := enrich h now' st (deactivation_event now (sessionId st)) in
  (isEnabled st = true →
     pendingEvents st' = [] ∧
     flushed st' = flushed st ++ [pendingEvents st ++ [event]]) ∧
  (isEnabled st = false → st' = st).
Proof.
  intros Hd Hlen st' event. subst st'. unfold trackExtensionDeactivation.
  split.
  - intros Hen. rewrite trackEvent_enabled by done. cbv zeta.
    cbn [pendingEvents set_pendingEvents]. fold event.
    assert (pendingEvents st ++ [event] ≠ []) as Hne
      by (by destruct (pendingEvents st)).
    case_bool_decide.
    + rewrite (flush_delivered deliver (set_pendingEvents _ st))
        by done.
      rewrite flush_skip by (right; done). done.
    + rewrite (flush_delivered deliver (set_pendingEvents _ st))
        by done.
      done.
  - intros Hoff. rewrite trackEvent_disabled by done.
    apply flush_skip. by left.
Qed.

Lemma trackExtensionDeactivation_flushes_witness :
  let st' := trackExtensionDeactivation Samples.sample_host 50 51
               Samples.always_delivered (Samples.service_with 3) in
  pendingEvents st' = [] ∧
  (fmap (M:=list) TelemetryEvent.type <$> flushed st')
  = [[TelemetryEvent.COMMAND_EXECUTED; TelemetryEvent.COMMAND_EXECUTED;
      TelemetryEvent.COMMAND_EXECUTED; TelemetryEvent.EXTENSION_DEACTIVATED]].
Proof.
  destruct (trackExtensionDeactivation_flushes Samples.sample_host 50 51
              Samples.always_delivered (Samples.service_with 3))
    as [Hon _]; [reflexivity | vm_compute; lia |].
  destruct Hon as [Hp Hf]; [reflexivity|].
  split; [exact Hp|]. cbv zeta. rewrite Hf. reflexivity.
Defined.

Lemma run_disabled h st calls :
  isEnabled st = false →
  Forall (λ c, match c with
               | Flush _ | TrackEvent _ _ _ => True
               | _ => False
               end) calls →
  run h st calls = st.
Proof.
  intros Hoff Hcalls. unfold run.
  induction Hcalls as [|c calls Hc _ IH]; [done|]. simpl.
  destruct c; try done; simpl.
  - by rewrite trackEvent_disabled.
  - by rewrite flush_skip by auto.
Qed.

(** X16. Switching off and on again. Events pending when telemetry is
    disabled wait in the buffer: flushes and tracked events change nothing
    while it is off, and the first flush after [enable], if its delivery
    succeeds, hands over exactly the events that were pending before. *)
Theorem disable_then_enable_delivers_pending h st calls deliver :
  pendingEvents st ≠ [] →
  Forall (λ c, match c with
               | Flush _ | TrackEvent _ _ _ => True
               | _ => False
               end) calls →
  deliver (pendingEvents st) = Delivered →
  let st' := flush deliver (enable (run h (disable st) calls)) in
  pendingEvents st' = [] ∧ flushed st' = flushed st ++ [pendingEvents st].
Proof.
  intros Hne Hcalls Hd st'. subst st'.
  rewrite run_disabled by done.
  rewrite flush_delivered by done. done.
Qed.

Lemma disable_then_enable_delivers_pending_witness :
  let st' := flush Samples.always_delivered
               (enable (run Samples.sample_host
                          (disable (Samples.service_with 3))
                          [Flush Samples.always_delivered;
                           TrackEvent 9 Samples.always_delivered
                             (Samples.sample_event 9)])) in
  pendingEvents st' = [] ∧ (length <$> flushed st') = [3%nat].
Proof.
  destruct (disable_then_enable_delivers_pending Samples.sample_host
              (Samples.service_with 3)
              [Flush Samples.always_delivered;
               TrackEvent 9 Samples.always_delivered (Samples.sample_event 9)]
              Samples.always_delivered) as [Hp Hf].
  - vm_compute. discriminate.
  - repeat constructor.
  - reflexivity.
  - split; [exact Hp|]. cbv zeta. rewrite Hf. reflexivity.
Defined.

End telemetry_more.

Section agent_more.
Import Runtime AgentService.
Local Open Scope js_scope.

Implicit Types (E : env) (w : world).







(** A request that times out: no response, the request was sent. *)
Example generateCode_timeout :
  let t := ApiClient.Transport
             (λ _ _, ApiClient.Rejects (ApiClient.mkAxiosError None true "timeout of 30000ms exceeded"))
             (λ _ _, ApiClient.Rejects (ApiClient.mkAxiosError None true "timeout of 30000ms exceeded"))
             (λ _ _, ApiClient.Rejects (ApiClient.mkAxiosError None true "timeout of 30000ms exceeded"))
             (λ _ _, ApiClient.Rejects (ApiClient.mkAxiosError None true "timeout of 30000ms exceeded"))
             (λ _ _, ApiClient.Rejects (ApiClient.mkAxiosError None true "timeout of 30000ms exceeded"))
             (λ _ _, ApiClient.Rejects (ApiClient.mkAxiosError None true "timeout of 30000ms exceeded")) in
  (generateCode (ApiClient.over_client MoreSamples.completing_env t)
     (CodeGenerationParams.mk "a sort function" None None None None)
     Samples.sample_world).1
  = Ret (Failure (Error.mk
      "Failed to generate code: No response received from the server")).
Proof. vm_compute. reflexivity. Qed.

End agent_more.

Section providers_more.
Import Runtime CompletionService AgentService.

(** The items a provider makes of a suggestion are at most one snippet. *)
Lemma items_of_one_snippet detail sortText preselect suggestion :
  one_snippet detail sortText preselect
    (items_of detail sortText preselect suggestion).
Proof.
  unfold items_of. destruct suggestion as [s|]; simpl; [|by left].
  unfold JS.truthy. case_bool_decide; simpl; [by left|].
  right. by exists s.
Qed.


(** X21. The triggers [M31CompletionItemProvider] declines. When the
    feature is disabled, the typed character is not a trigger character,
    the language is not enabled, or the trimmed text before the cursor is
    shorter than the minimum, the provider answers nothing and leaves the
    services as they were: no cache access, no network call, no event, no
    logged error. *)
Theorem item_provider_declines E ps getFileContext document position context
    w :
  declined E ps document position context →
  M31CompletionItemProvider.provideCompletionItems E ps getFileContext
    document position context w
  = (Ret None, w).
Proof.
  intros Hdeclined.
  unfold M31CompletionItemProvider.provideCompletionItems, try_catch.
  destruct (autoComplete (config E)) eqn:Hauto; simpl; [|done].
  destruct Hdeclined as [?|[[Hkind Hchar]|[Hlang|Hshort]]]; [congruence|..].
  - rewrite Hkind. by rewrite bool_decide_false.
  - destruct (match M31CompletionItemProvider.triggerKind context with
              | M31CompletionItemProvider.TriggerCharacter => _
              | _ => false
              end); [done|].
    by destruct (M31CompletionItemProvider.languages ps
                 !! TextDocument.languageId document) as [[|]|].
  - destruct Hshort as (lineText & Hline & Hl & Hshort).
    destruct (match M31CompletionItemProvider.triggerKind context with
              | M31CompletionItemProvider.TriggerCharacter => _
              | _ => false
              end); [done|].
    destruct (negb _); [done|].
    unfold bind at 1. rewrite (lineAt_Some _ _ _ _ Hline Hl).
    by rewrite bool_decide_true.
Qed.

Lemma item_provider_declines_witness :
  M31CompletionItemProvider.provideCompletionItems MoreSamples.completing_env
    ProviderSamples.sample_provider ProviderSamples.no_file_context
    Samples.sample_document Samples.after_console (ProviderSamples.typed "(")
    Samples.sample_world
  = (Ret None, Samples.sample_world).
Proof.
  apply item_provider_declines.
  right; left. split; [reflexivity|].
  apply (bool_decide_unpack _). vm_compute. exact I.
Defined.

(** X22. [M31CompletionItemProvider.provideCompletionItems] never throws,
    and its answer is nothing or exactly one snippet, preselected and sorted
    first, whose label and inserted text are the same non-empty
    suggestion. *)
Theorem item_provider_one_snippet E ps getFileContext document position
    context w :
  ∃ answer,
    (M31CompletionItemProvider.provideCompletionItems E ps getFileContext
       document position context w).1 = Ret answer ∧
    one_snippet "M31 AI Suggestion" (Some "0") (Some true) answer.
Proof.
  unfold M31CompletionItemProvider.provideCompletionItems, try_catch.
  destruct (negb (autoComplete (config E))); [exists None; by split; [|left]|].
  destruct (match M31CompletionItemProvider.triggerKind context with
            | M31CompletionItemProvider.TriggerCharacter => _
            | _ => false
            end); [exists None; by split; [|left]|].
  destruct (negb _); [exists None; by split; [|left]|].
  unfold bind at 1.
  destruct (lineAt document (Position.line position) w) as [[l|e] w1];
    [|exists None; by split; [|left]].
  case_bool_decide; [exists None; by split; [|left]|].
  unfold bind at 1.
  destruct (getCompletion_never_throws E document position
              (Some (getFileContext document)) w1) as [r Hr].
  destruct (CompletionService.getCompletion E document position
              (Some (getFileContext document)) w1) as [o w2].
  simpl in Hr. subst o.
  exists (items_of "M31 AI Suggestion" (Some "0") (Some true) r). split.
  - unfold items_of. by destruct (JS.truthy_opt r).
  - apply items_of_one_snippet.
Qed.

(** X23. The triggers [M31CompletionItemProvider] accepts. With the feature
    enabled, an allowed trigger, an enabled language and a cursor line whose
    trimmed prefix has the minimum length, the answer is the item made of
    what [CompletionService.getCompletion] returns for the document, the
    position and the file context, in the world that call leaves; the
    session envelope of [AgentService] is not involved. *)
Theorem item_provider_accepts E ps getFileContext document position context
    lineText w :
  autoComplete (config E) = true →
  (M31CompletionItemProvider.triggerKind context
   = M31CompletionItemProvider.TriggerCharacter →
   default "" (M31CompletionItemProvider.triggerCharacter context)
   ∈ M31CompletionItemProvider.triggerCharacters ps) →
  M31CompletionItemProvider.languages ps !! TextDocument.languageId document
  = Some true →
  0 ≤ Position.line position →
  TextDocument.lines document !! Z.to_nat (Position.line position)
  = Some lineText →
  M31CompletionItemProvider.minWordLength ps
  ≤ Z.of_nat (String.length
                (JS.trim (JS.substring lineText 0
                            (Position.character position)))) →
  ∃ r w',
    CompletionService.getCompletion E document position
      (Some (getFileContext document)) w = (Ret r, w') ∧
    M31CompletionItemProvider.provideCompletionItems E ps getFileContext
      document position context w
    = (Ret (items_of "M31 AI Suggestion" (Some "0") (Some true) r), w') ∧
    activeSessions w' = activeSessions w.
Proof.
  intros Hauto Hkind Hlang Hline Hl Hlong.
  destruct (getCompletion_never_throws E document position
              (Some (getFileContext document)) w) as [r Hr].
  pose proof (keeps_getCompletion E activeSessions document position
                (Some (getFileContext document))) as Hsessions.
  specialize (Hsessions ltac:(done) ltac:(done) ltac:(done) ltac:(done)
                ltac:(done) w).
  destruct (CompletionService.getCompletion E document position
              (Some (getFileContext document)) w) as [o w'] eqn:Hrun.
  simpl in Hr, Hsessions. subst o.
  exists r, w'. split; [done|]. split; [|done].
  unfold M31CompletionItemProvider.provideCompletionItems, try_catch.
  rewrite Hauto, Hlang. simpl.
  assert (match M31CompletionItemProvider.triggerKind context with
          | M31CompletionItemProvider.TriggerCharacter =>
              negb (bool_decide
                      (default ""
                         (M31CompletionItemProvider.triggerCharacter context)
                       ∈ M31CompletionItemProvider.triggerCharacters ps))
          | _ => false
          end = false) as ->.
  { destruct (M31CompletionItemProvider.triggerKind context); [done| |done].
    by rewrite bool_decide_true by auto. }
  unfold bind at 1. rewrite (lineAt_Some _ _ _ _ Hline Hl).
  rewrite bool_decide_false by lia.
  unfold bind at 1. rewrite Hrun. unfold items_of.
  by destruct (JS.truthy_opt r).
Qed.

Lemma item_provider_accepts_witness :
  ∃ r w',
    CompletionService.getCompletion MoreSamples.completing_env
      Samples.sample_document Samples.after_console
      (Some (ProviderSamples.no_file_context Samples.sample_document))
      Samples.sample_world = (Ret r, w') ∧
    M31CompletionItemProvider.provideCompletionItems
      MoreSamples.completing_env ProviderSamples.sample_provider
      ProviderSamples.no_file_context Samples.sample_document
      Samples.after_console (ProviderSamples.typed ".") Samples.sample_world
    = (Ret (items_of "M31 AI Suggestion" (Some "0") (Some true) r), w') ∧
    activeSessions w' = activeSessions Samples.sample_world.
Proof.
  apply (item_provider_accepts MoreSamples.completing_env
           ProviderSamples.sample_provider ProviderSamples.no_file_context
           Samples.sample_document Samples.after_console
           (ProviderSamples.typed ".") "console.log(a);").
  - reflexivity.
  - intros _. apply (bool_decide_unpack _). vm_compute. exact I.
  - vm_compute. reflexivity.
  - vm_compute. discriminate.
  - reflexivity.
  - vm_compute. discriminate.
Defined.

End providers_more.

Section webview_more.
Import WebviewService.

Lemma replace_all_app c by_ s1 s2 :
  replace_all c by_ (s1 +:+ s2)
  = replace_all c by_ s1 +:+ replace_all c by_ s2.
Proof.
  induction s1 as [|a s1 IH]; [done|].
  change (String a s1 +:+ s2) with (String a (s1 +:+ s2)).
  cbn [replace_all]. rewrite IH. destruct (decide (a = c)).
  - by rewrite string_app_assoc.
  - done.
Qed.

Lemma escapeHtml_app s1 s2 :
  escapeHtml (s1 +:+ s2) = escapeHtml s1 +:+ escapeHtml s2.
Proof. unfold escapeHtml. by rewrite !replace_all_app. Qed.

Lemma escapeHtml_one a : escapeHtml (String a EmptyString) = entity a.
Proof.
  unfold entity.
  repeat (destruct (decide _) as [->|?]; [by vm_compute|]).
  unfold escapeHtml.
  repeat (cbn [replace_all]; rewrite decide_False by done).
  done.
Qed.

Lemma escapeHtml_per_character text : escapeHtml text = per_character text.
Proof.
  induction text as [|a text IH]; [done|].
  change (String a text) with (String a EmptyString +:+ text).
  rewrite escapeHtml_app, escapeHtml_one, IH. done.
Qed.

Lemma occurs_app c s1 s2 :
  occurs c (s1 +:+ s2) = occurs c s1 || occurs c s2.
Proof.
  induction s1 as [|a s1 IH]; [done|].
  change (String a s1 +:+ s2) with (String a (s1 +:+ s2)).
  cbn [occurs]. rewrite IH. by rewrite orb_assoc.
Qed.

Lemma occurs_entity c a : c ∈ markup → occurs c (entity a) = false.
Proof.
  intros Hc. unfold entity.
  assert (c = "<"%char ∨ c = ">"%char ∨ c = "034"%char ∨ c = "'"%char)
    as Hcases.
  { unfold markup in Hc. rewrite !elem_of_cons, elem_of_nil in Hc. tauto. }
  repeat (destruct (decide _) as [->|?];
          [by destruct Hcases as [-> | [-> | [-> | ->]]]|]).
  cbn [occurs]. rewrite orb_false_r. apply bool_decide_eq_false.
  by destruct Hcases as [-> | [-> | [-> | ->]]].
Qed.

(** X24. [escapeHtml] escapes in one pass. The five successive
    replacements give the text in which every character is replaced by its
    own entity: since the ampersand is replaced first, the ampersands that
    the later replacements write are not escaped again. The result holds
    no [<], [>], double quote or single quote, and escaping is
    compositional: the escape of a concatenation is the concatenation of
    the escapes. *)
Theorem escapeHtml_one_pass text :
  escapeHtml text = per_character text ∧
  Forall (λ c, occurs c (escapeHtml text) = false) markup ∧
  ∀ more, escapeHtml (text +:+ more) = escapeHtml text +:+ escapeHtml more.
Proof.
  split; [apply escapeHtml_per_character|]. split; [|apply escapeHtml_app].
  apply Forall_forall. intros c Hc. rewrite escapeHtml_per_character.
  induction text as [|a text IH]; [done|].
  cbn [per_character]. by rewrite occurs_app, occurs_entity, IH.
Qed.

(** An already escaped text is escaped once more: [escapeHtml] is not
    idempotent. *)
Example escapeHtml_twice :
  escapeHtml (escapeHtml "a<b") = "a&amp;lt;b".
Proof. vm_compute. reflexivity. Qed.

End webview_more.

Section formatting_more.
Import Runtime M31DocumentFormattingEditProvider.

Lemma occurrences_app c s1 s2 :
  occurrences c (s1 +:+ s2) = (occurrences c s1 + occurrences c s2)%nat.
Proof.
  induction s1 as [|a s1 IH]; [done|].
  change (String a s1 +:+ s2) with (String a (s1 +:+ s2)).
  cbn [occurrences]. rewrite IH. lia.
Qed.

Lemma occurrences_trimStart c s :
  occurrences c s = 0%nat → occurrences c (JS.trimStart s) = 0%nat.
Proof.
  induction s as [|a s IH]; [done|]. intros H. cbn [JS.trimStart].
  destruct (JS.is_space a); [|done].
  apply IH. cbn [occurrences] in H. lia.
Qed.

Lemma occurrences_trimEnd c s :
  occurrences c s = 0%nat → occurrences c (JS.trimEnd s) = 0%nat.
Proof.
  induction s as [|a s IH]; [done|]. intros H. cbn [occurrences] in H.
  cbn [JS.trimEnd].
  assert (occurrences c (JS.trimEnd s) = 0%nat) as Hs by (apply IH; lia).
  destruct (JS.trimEnd s) as [|b t].
  - destruct (JS.is_space a); [done|]. cbn [occurrences]. lia.
  - cbn [occurrences] in *. lia.
Qed.

Lemma occurrences_trim c s :
  occurrences c s = 0%nat → occurrences c (JS.trim s) = 0%nat.
Proof.
  intros H. unfold JS.trim. by apply occurrences_trimEnd, occurrences_trimStart.
Qed.

Lemma split_lines_length text :
  length (split_lines text) = S (occurrences line_feed text).
Proof.
  induction text as [|a text IH]; [done|].
  cbn [split_lines occurrences]. destruct (decide (a = line_feed)) as [->|Ha].
  - rewrite bool_decide_true by done. simpl. by rewrite IH.
  - rewrite bool_decide_false by done.
    destruct (split_lines text); simpl in *; lia.
Qed.

Lemma split_lines_no_line_feed text :
  Forall (λ line, occurrences line_feed line = 0%nat) (split_lines text).
Proof.
  induction text as [|a text IH]; [by repeat constructor|].
  cbn [split_lines]. destruct (decide (a = line_feed)) as [->|Ha].
  - by constructor.
  - destruct (split_lines text) as [|l ls].
    + repeat constructor. cbn [occurrences]. by rewrite bool_decide_false.
    + inversion IH; subst. constructor; [|done].
      cbn [occurrences]. rewrite bool_decide_false by done. lia.
Qed.

Lemma repeat_no_line_feed s count :
  occurrences line_feed s = 0%nat → 0 ≤ count →
  ∃ r, repeat s count = Some r ∧ occurrences line_feed r = 0%nat.
Proof.
  intros Hs Hcount. unfold repeat. rewrite bool_decide_false by lia.
  eexists. split; [done|].
  induction (Z.to_nat count) as [|n IH]; [done|].
  rewrite Nat.iter_succ, occurrences_app. lia.
Qed.

(** One turn of the loop writes exactly one line feed and keeps the
    indentation level non-negative. *)
Lemma format_line_spec indentChar formatted indentLevel line :
  occurrences line_feed indentChar = 0%nat →
  occurrences line_feed line = 0%nat →
  0 ≤ indentLevel →
  ∃ formatted' indentLevel',
    format_line indentChar (formatted, indentLevel) line
    = Some (formatted', indentLevel') ∧
    occurrences line_feed formatted' = S (occurrences line_feed formatted) ∧
    0 ≤ indentLevel'.
Proof.
  intros Hindent Hline Hlevel. unfold format_line. cbn [fst snd].
  pose proof (occurrences_trim line_feed line Hline) as Htrim.
  set (trimmedLine := JS.trim line) in *.
  match goal with
  | |- context [if ?b then Z.max 0 (indentLevel - 1) else indentLevel] =>
      set (level := if b then Z.max 0 (indentLevel - 1) else indentLevel);
      assert (0 ≤ level) as Hl by (subst level; destruct b; lia)
  end.
  match goal with
  | |- context [if ?b then level + 1 else level] =>
      set (level' := if b then level + 1 else level);
      assert (0 ≤ level') as Hl' by (subst level'; destruct b; lia)
  end.
  case_bool_decide.
  - destruct (repeat_no_line_feed indentChar level Hindent Hl)
      as (r & -> & Hr).
    simpl. eexists _, _. split; [done|]. split; [|done].
    rewrite !occurrences_app, Hr, Htrim. simpl. lia.
  - simpl. eexists _, _. split; [done|]. split; [|done].
    rewrite occurrences_app. simpl. lia.
Qed.

Lemma format_lines_spec indentChar lines formatted indentLevel :
  occurrences line_feed indentChar = 0%nat →
  Forall (λ line, occurrences line_feed line = 0%nat) lines →
  0 ≤ indentLevel →
  ∃ formatted' indentLevel',
    format_lines indentChar lines (formatted, indentLevel)
    = Some (formatted', indentLevel') ∧
    occurrences line_feed formatted'
    = (occurrences line_feed formatted + length lines)%nat.
Proof.
  intros Hindent Hlines. revert formatted indentLevel.
  induction Hlines as [|line lines Hline _ IH]; intros formatted level Hl.
  - eexists _, _. split; [done|]. simpl. lia.
  - destruct (format_line_spec indentChar formatted level line)
      as (f1 & l1 & Hstep & Hf1 & Hl1); [done..|].
    destruct (IH f1 l1 Hl1) as (f2 & l2 & Hrest & Hf2).
    exists f2, l2. cbn [format_lines]. rewrite Hstep. simpl.
    split; [done|]. rewrite Hf2, Hf1. simpl. lia.
Qed.

Lemma formatText_line_feeds text languageId insertSpaces tabSize :
  (insertSpaces = true → 0 ≤ tabSize) →
  ∃ formatted,
    formatText text languageId insertSpaces tabSize = Some formatted ∧
    occurrences line_feed formatted = S (occurrences line_feed text).
Proof.
  intros Htab. unfold formatText.
  assert (∃ indentChar,
            (if insertSpaces then repeat " " tabSize else Some TAB)
            = Some indentChar ∧
            occurrences line_feed indentChar = 0%nat)
    as (indentChar & -> & Hindent).
  { destruct insertSpaces.
    - apply repeat_no_line_feed; [done|auto].
    - by exists TAB. }
  simpl.
  destruct (format_lines_spec indentChar (split_lines text) EmptyString 0)
    as (formatted & level & -> & Hcount);
    [done|apply split_lines_no_line_feed|done|].
  simpl. exists formatted. split; [done|].
  rewrite Hcount, split_lines_length. simpl. lia.
Qed.

(** X25. [formatText] writes one line per line of the text, each closed by
    a line feed. With a tab size that is not negative (or tabs for
    indentation) it returns a text that has one line feed more than its
    input; so the result always differs from the input, also for a text that
    is already formatted. *)
Theorem formatText_adds_a_line_feed text languageId insertSpaces tabSize :
  (insertSpaces = true → 0 ≤ tabSize) →
  ∃ formatted,
    formatText text languageId insertSpaces tabSize = Some formatted ∧
    occurrences line_feed formatted = S (occurrences line_feed text) ∧
    formatted ≠ text.
Proof.
  intros Htab.
  destruct (formatText_line_feeds text languageId insertSpaces tabSize Htab)
    as (formatted & Hrun & Hcount).
  exists formatted. split; [done|]. split; [done|].
  intros ->. lia.
Qed.

Lemma formatText_adds_a_line_feed_witness :
  ∃ formatted,
    formatText "if (a) {
b();
}
" "javascript" true 2 = Some formatted ∧
    occurrences line_feed formatted
    = S (occurrences line_feed "if (a) {
b();
}
") ∧
    formatted ≠ "if (a) {
b();
}
".
Proof.
  apply (formatText_adds_a_line_feed _ "javascript" true 2).
  intros _. vm_compute. discriminate.
Defined.

(** X26. The formatting provider never reports that nothing changed. The
    provider never throws, and it never answers with the empty list of
    edits: the branch for a formatted text equal to the text of the
    document is dead, and every request that is neither left to the default
    formatter nor cancelled gets a replacement of the whole document or,
    after a logged error, nothing. *)
Theorem formatting_provider_never_empty formatterType isCancellationRequested
    documentText languageId insertSpaces tabSize w :
  ∃ answer,
    (provideDocumentFormattingEdits formatterType isCancellationRequested
       documentText languageId insertSpaces tabSize w).1 = Ret answer ∧
    answer ≠ Some [] ∧
    (formatterType ≠ "default" → isCancellationRequested = false →
     (insertSpaces = true → 0 ≤ tabSize) →
     ∃ formatted,
       formatText documentText languageId insertSpaces tabSize
       = Some formatted ∧
       provideDocumentFormattingEdits formatterType isCancellationRequested
         documentText languageId insertSpaces tabSize w
       = (Ret (Some [replace 0 (Z.of_nat (String.length documentText))
                       formatted]), w)).
Proof.
  unfold provideDocumentFormattingEdits, try_catch, bind, ret, throw.
  case_bool_decide as Hdefault; [by exists None|].
  destruct isCancellationRequested; [by exists None|].
  destruct (formatText documentText languageId insertSpaces tabSize)
    as [formatted|] eqn:Hrun.
  - assert (formatted ≠ documentText) as Hne.
    { destruct (decide (insertSpaces = true → 0 ≤ tabSize)) as [Htab|Hneg].
      - destruct (formatText_line_feeds documentText languageId insertSpaces
                    tabSize Htab) as (f & Hf & Hcount).
        rewrite Hrun in Hf. injection Hf as <-. intros ->. lia.
      - exfalso. apply Hneg. intros ->. unfold formatText, repeat in Hrun.
        case_bool_decide; [done|lia]. }
    rewrite bool_decide_false by done.
    eexists. split; [done|]. split; [discriminate|].
    intros _ _ _. by exists formatted.
  - simpl. exists None. split; [done|]. split; [done|].
    intros _ _ Htab.
    destruct (formatText_line_feeds documentText languageId insertSpaces
                tabSize Htab) as (f & Hf & _).
    congruence.
Qed.

Lemma formatting_provider_never_empty_witness :
  ∃ formatted,
    formatText "a {" "javascript" true 2 = Some formatted ∧
    provideDocumentFormattingEdits "prettier" false "a {" "javascript" true 2
      Samples.sample_world
    = (Ret (Some [replace 0 (Z.of_nat (String.length "a {")) formatted]),
       Samples.sample_world).
Proof.
  destruct (formatting_provider_never_empty "prettier" false "a {"
              "javascript" true 2 Samples.sample_world)
    as (answer & _ & _ & Hanswer).
  apply Hanswer.
  - discriminate.
  - reflexivity.
  - intros _. vm_compute. discriminate.
Defined.

End formatting_more.
